(** * GPU-Util: the fan curve interpolator and the adaptive temperature
      controller of [gpu_fan_controller.py]

    Python [float]s are IEEE binary64 numbers, modelled with the executable
    specification [SpecFloat] of the Standard Library (precision 53,
    [emax] 1024); Python [int]s are [Z].  Exceptions are explicit results. *)

From Stdlib Require Import String ZArith List Bool Lia QArith Lqa Sorted.
From Stdlib Require Import Permutation.
From Stdlib Require Import SpecFloat.
Import ListNotations.

#[local] Open Scope Z_scope.

(** ** Python results: a value or a raised exception *)

Inductive exn : Set :=
| ZeroDivisionError
| OverflowError
| ValueError
| IndexError.

Inductive py (A : Type) : Type :=
| Return (a : A)
| Raise (e : exn).

Arguments Return {A} a.
Arguments Raise {A} e.

Definition bind {A B : Type} (m : py A) (k : A -> py B) : py B :=
  match m with
  | Return a => k a
  | Raise e => Raise e
  end.

Notation "x <- m ;; k" := (bind m (fun x => k))
  (at level 61, m at next level, right associativity).

(** ** Binary64 arithmetic as Python exposes it *)

Module Binary64.

Definition prec : Z := 53.
Definition emax : Z := 1024.

Definition float : Set := spec_float.

Definition add : float -> float -> float := SFadd prec emax.
Definition sub : float -> float -> float := SFsub prec emax.
Definition mul : float -> float -> float := SFmul prec emax.
Definition abs : float -> float := SFabs.
Definition ltb : float -> float -> bool := SFltb.
Definition leb : float -> float -> bool := SFleb.

(** The double nearest to the integer [z] (exact up to [2^53]). *)
Definition fl (z : Z) : float := binary_normalize prec emax z 0 false.

(** The double a decimal literal [n/d] denotes, e.g. [lit 25 10] for
    [2.5]; also [x / 1000.0] of an integer reading. *)
Definition lit (n d : Z) : float := SFdiv prec emax (fl n) (fl d).

Definition zero : float := S754_zero false.

Definition is_zero (x : float) : bool :=
  match x with
  | S754_zero _ => true
  | _ => false
  end.

Definition is_nan (x : float) : bool :=
  match x with
  | S754_nan => true
  | _ => false
  end.

(** [a / b] on floats: Python raises on a zero divisor. *)
Definition truediv (x y : float) : py float :=
  if is_zero y then Raise ZeroDivisionError else Return (SFdiv prec emax x y).

(** [float(z)] as done implicitly by [int * float]. *)
Definition of_int (z : Z) : py float :=
  match fl z with
  | S754_infinity _ => Raise OverflowError
  | x => Return x
  end.

(** [int(x)]: truncation toward zero. *)
Definition to_int (x : float) : py Z :=
  match x with
  | S754_zero _ => Return 0
  | S754_finite s m e => Return (cond_Zopp s (Z.shiftl (Zpos m) e))
  | S754_infinity _ => Raise OverflowError
  | S754_nan => Raise ValueError
  end.

(** Every double Python holds is a valid binary64 number. *)
Definition valid (x : float) : Prop := valid_binary prec emax x = true.

Definition emin64 : Z := emin prec emax.

(** Not a negative finite number: what [int] turns into a result [>= 0]
    when it returns at all. *)
Definition nonnegative (x : float) : Prop :=
  match x with
  | S754_finite true _ _ => False
  | _ => True
  end.

(** [max(l)] and [min(l)] of a list, by Python's left-to-right scan. *)
Definition py_max (l : list float) : py float :=
  match l with
  | [] => Raise ValueError
  | x :: r => Return (fold_left (fun acc y => if ltb acc y then y else acc) r x)
  end.

Definition py_min (l : list float) : py float :=
  match l with
  | [] => Raise ValueError
  | x :: r => Return (fold_left (fun acc y => if ltb y acc then y else acc) r x)
  end.

End Binary64.

(** ** The adaptive controller: [temperature_control] *)

Module Controller.
Import Binary64.

Record Config : Set := mkConfig {
  target_temp : float;
  min_fan : Z;
  max_fan : Z
}.

(** The [nonlocal] variables of the closure. *)
Record State : Set := mkState {
  last_fan_speed : Z;
  temp_history : list float;
  aggressive_mode : bool;
  stable_counter : Z
}.

Definition history_max_size : nat := 10.
Definition stable_threshold : float := lit 20 10.
Definition stable_required : Z := 6.

(** What the closure holds before the first call. *)
Definition initial (c : Config) : State := mkState (min_fan c) [] true 0.

(** [temperature_control]: it binds the arguments and the initial values
    of the [nonlocal] variables, and has no [raise]. *)
Definition temperature_control (target : float) (min_fan max_fan : Z)
  : py (Config * State) :=
  let c := mkConfig target min_fan max_fan in
  Return (c, initial c).

(** [temp_history.append(t)] followed by the eviction of the oldest entry. *)
Definition push_history (h : list float) (t : float) : list float :=
  let h1 := h ++ [t] in
  if (history_max_size <? length h1)%nat then tl h1 else h1.

(** [h[-k]], used only under a guard [len(h) >= k]. *)
Definition from_end (h : list float) (k : nat) : float :=
  nth (length h - k) h S754_nan.

(** Lines 248-261: the stability detector; returns the new
    [(aggressive_mode, stable_counter)]. *)
Definition update_mode (c : Config) (h : list float) (current_temp : float)
    (aggressive : bool) (counter : Z) : py (bool * Z) :=
  if (4 <=? length h)%nat then
    mx <- py_max h ;;
    mn <- py_min h ;;
    let temp_variation := sub mx mn in
    if ltb (abs (sub current_temp (target_temp c))) (lit 30 10)
       && ltb temp_variation stable_threshold
    then
      let counter' := counter + 1 in
      Return (if (stable_required <=? counter') && aggressive
              then false else aggressive, counter')
    else
      Return (if negb aggressive
                 && (ltb (lit 50 10) (abs (sub current_temp (target_temp c)))
                     || ltb (lit 40 10) temp_variation)
              then true else aggressive, 0)
  else Return (aggressive, counter).

Definition over_target_gain (aggressive : bool) : float :=
  if aggressive then lit 25 10 else lit 15 10.
Definition under_target_gain (aggressive : bool) : float :=
  if aggressive then lit 15 10 else lit 8 10.
Definition min_adjustment (aggressive : bool) : Z :=
  if aggressive then 3 else 1.

(** [len(h) >= 3 and h[-1] > h[-3]]. *)
Definition climbing (h : list float) : bool :=
  (3 <=? length h)%nat && ltb (from_end h 3) (from_end h 1).

(** Lines 263-298: the candidate speed [new_fan], computed with the history
    and the mode as they are after lines 242-261. *)
Definition new_fan (c : Config) (s : State) (current_temp : float) : py Z :=
  let temp_diff := sub current_temp (target_temp c) in
  let aggressive := aggressive_mode s in
  if ltb zero temp_diff then
    k <- to_int (mul temp_diff (over_target_gain aggressive)) ;;
    let adjustment := Z.max (min_adjustment aggressive) k in
    adjustment <-
      (if climbing (temp_history s)
       then (f <- of_int adjustment ;; to_int (mul f (lit 15 10)))
       else Return adjustment) ;;
    Return (Z.min (max_fan c) (last_fan_speed s + adjustment))
  else
    k <- to_int (mul (abs temp_diff) (under_target_gain aggressive)) ;;
    let adjustment := Z.max (min_adjustment aggressive) k in
    f <- of_int adjustment ;;
    adjustment <- to_int (mul f (if aggressive then lit 7 10 else lit 5 10)) ;;
    Return (Z.max (min_fan c) (last_fan_speed s - adjustment)).

(** Line 301: the test that lets the candidate through. *)
Definition gate (c : Config) (last candidate : Z) (current_temp : float) : bool :=
  (2 <=? Z.abs (candidate - last))
  || ltb (fl 3) (abs (sub current_temp (target_temp c))).

(** The state once the history and the mode have been updated. *)
Definition observe (c : Config) (s : State) (current_temp : float) : py State :=
  let h := push_history (temp_history s) current_temp in
  am <- update_mode c h current_temp (aggressive_mode s) (stable_counter s) ;;
  Return (mkState (last_fan_speed s) h (fst am) (snd am)).

(** One call of the closure.  The state component is what the [nonlocal]
    variables hold when the call ends, also when it ends by an exception. *)
Definition get_fan_speed_for_temp (c : Config) (s : State)
    (current_temp : option float) : State * py Z :=
  match current_temp with
  | None => (s, Return (last_fan_speed s))
  | Some t =>
    match observe c s t with
    | Raise e =>
      (mkState (last_fan_speed s) (push_history (temp_history s) t)
               (aggressive_mode s) (stable_counter s), Raise e)
    | Return s1 =>
      match new_fan c s1 t with
      | Raise e => (s1, Raise e)
      | Return candidate =>
        let last :=
          if gate c (last_fan_speed s1) candidate t
          then candidate else last_fan_speed s1 in
        (mkState last (temp_history s1) (aggressive_mode s1) (stable_counter s1),
         Return last)
      end
    end
  end.

(** Feeding a list of samples; the outputs of the calls, oldest first. *)
Fixpoint run (c : Config) (s : State) (samples : list (option float))
  : State * list (py Z) :=
  match samples with
  | [] => (s, [])
  | x :: rest =>
    let (s1, r) := get_fan_speed_for_temp c s x in
    let (s2, rs) := run c s1 rest in
    (s2, r :: rs)
  end.

(** The session of the specification's example: target 70, bounds 30 and
    100, fed the sample 80.0. *)
Definition hot_config : Config := mkConfig (fl 70) 30 100.
Definition hot : float := fl 80.

Definition all_hot (s : State) : Prop :=
  aggressive_mode s = true /\ Forall (eq hot) (temp_history s).

(** The states a session can be in. *)
Inductive reachable (c : Config) : State -> Prop :=
| reach_initial : reachable c (initial c)
| reach_call s x :
    reachable c s -> reachable c (fst (get_fan_speed_for_temp c s x)).

End Controller.

(** ** The update rule in the words of the specification *)

Module Spec.
Import Binary64 Controller.

(** [round(x)]: the nearest integer, a tie going to the even one. *)
Definition round (x : float) : py Z :=
  match x with
  | S754_zero _ => Return 0
  | S754_finite s m e =>
    Return (cond_Zopp s
      match e with
      | Zneg p =>
        let d := 2 ^ Zpos p in
        let q := Zpos m / d in
        match (2 * (Zpos m mod d) ?= d) with
        | Lt => q
        | Gt => q + 1
        | Eq => if Z.even q then q else q + 1
        end
      | _ => Zpos m * 2 ^ e
      end)
  | S754_infinity _ => Raise OverflowError
  | S754_nan => Raise ValueError
  end.

(** The candidate speed as the specification words it: [round] where the
    code has [int], and a decrease scaled by 0.7 or 0.5 as it is. *)
Definition candidate (c : Config) (s : State) (current_temp : float)
  : py float :=
  let diff := sub current_temp (target_temp c) in
  let aggressive := aggressive_mode s in
  if ltb zero diff then
    k <- round (mul diff (over_target_gain aggressive)) ;;
    let adjustment := Z.max (min_adjustment aggressive) k in
    adjustment <-
      (if climbing (temp_history s)
       then (f <- of_int adjustment ;; round (mul f (lit 15 10)))
       else Return adjustment) ;;
    of_int (Z.min (max_fan c) (last_fan_speed s + adjustment))
  else
    k <- round (mul (abs diff) (under_target_gain aggressive)) ;;
    f <- of_int (Z.max (min_adjustment aggressive) k) ;;
    let adjustment := mul f (if aggressive then lit 7 10 else lit 5 10) in
    last <- of_int (last_fan_speed s) ;;
    lo <- of_int (min_fan c) ;;
    let v := sub last adjustment in
    Return (if ltb lo v then v else lo).

End Spec.

(** ** The fan curve: class [FanCurve] *)

Module FanCurve.

(** The numbers a curve is built from.  The Python code is duck-typed: it
    only uses the operations below, on [float]s (readings), on [int]s
    (the dialog's points) or on exact numbers such as [Fraction]. *)
Class Num (A : Type) : Type := {
  num_lt : A -> A -> bool;
  num_le : A -> A -> bool;
  num_sub : A -> A -> A;
  num_add : A -> A -> A;
  num_mul : A -> A -> A;
  num_div : A -> A -> py A;
  num_of_Z : Z -> A
}.

(** Binary64: an [int] of the curve is the double it converts to, which is
    exact for the magnitudes a curve holds. *)
#[export] Instance float_Num : Num Binary64.float := {
  num_lt := Binary64.ltb;
  num_le := Binary64.leb;
  num_sub := Binary64.sub;
  num_add := Binary64.add;
  num_mul := Binary64.mul;
  num_div := Binary64.truediv;
  num_of_Z := Binary64.fl
}.


Section Curve.
Context {A : Type} `{Num A}.

Definition point : Type := (A * A)%type.

Record t : Type := mkCurve {
  name : string;
  points : list point
}.

Definition default_points : list point :=
  map (fun p : Z * Z => (num_of_Z (fst p), num_of_Z (snd p)))
      [(30, 30); (50, 40); (70, 60); (80, 80); (90, 100)].

(** [list.sort(key=lambda p: p[0])]: a stable sort that compares keys
    with [<] only. *)
Fixpoint insert (p : point) (l : list point) : list point :=
  match l with
  | [] => [p]
  | q :: l' => if num_lt (fst q) (fst p) then q :: insert p l' else p :: l
  end.

Definition sort (l : list point) : list point := fold_right insert [] l.

(** [FanCurve.__init__]: [points or default], then the sort. *)
Definition init (name : string) (points : option (list point)) : py t :=
  let pts :=
    match points with
    | None | Some [] => default_points
    | Some l => l
    end in
  Return (mkCurve name (sort pts)).

(** The loop of lines 181-188 over the consecutive pairs, and the
    fallback of line 191 when it finds none. *)
Fixpoint interpolate (pts : list point) (temperature : A) : py A :=
  match pts with
  | (t1, f1) :: (((t2, f2) :: _) as rest) =>
    if num_le t1 temperature && num_le temperature t2 then
      ratio <- num_div (num_sub temperature t1) (num_sub t2 t1) ;;
      Return (num_add f1 (num_mul ratio (num_sub f2 f1)))
    else interpolate rest temperature
  | _ => Return (num_of_Z 50)
  end.

(** [FanCurve.get_fan_speed]; the inner [option] is Python's [None]. *)
Definition get_fan_speed (curve : t) (temperature : option A)
  : py (option A) :=
  match temperature with
  | None => Return None
  | Some temp =>
    match points curve with
    | [] => Raise IndexError
    | p0 :: _ =>
      if num_le temp (fst p0) then Return (Some (snd p0))
      else
        let pn := last (points curve) p0 in
        if num_le (fst pn) temp then Return (Some (snd pn))
        else v <- interpolate (points curve) temp ;; Return (Some v)
    end
  end.

(** Points in ascending order of temperature, without and with
    repeated temperatures, and fan speeds that never decrease. *)
Definition strictly_ascending (pts : list point) : Prop :=
  Sorted (fun p q => num_lt (fst p) (fst q) = true) pts.

Definition ascending (pts : list point) : Prop :=
  Sorted (fun p q => num_le (fst p) (fst q) = true) pts.


End Curve.

Arguments t A : clear implicits.
Arguments point A : clear implicits.

(** The curve [FanCurve()] builds. *)
Definition default_curve : t Binary64.float :=
  mkCurve "Default" (sort default_points).

(** Temperatures that are valid doubles and not NaN. *)
Definition proper (x : Binary64.float) : Prop :=
  Binary64.valid x /\ Binary64.is_nan x = false.

End FanCurve.

(** ** The code around the two algorithms: inputs, driver, files, loops
    and dialogs *)

Module Inputs.
Import Binary64 FanCurve.

(** The samples of a stream that are available ([is not None]), oldest
    first: the ones a controller records. *)
Fixpoint available (samples : list (option float)) : list float :=
  match samples with
  | [] => []
  | Some t :: rest => t :: available rest
  | None :: rest => available rest
  end.

(** Line 163, [points or [(30, 30), ...]]: the list [FanCurve.__init__]
    goes on to sort. *)
Definition points_or_default (pts : option (list (point float)))
  : list (point float) :=
  match pts with
  | None | Some [] => default_points
  | Some l => l
  end.

End Inputs.

Module Hardware.
Import Binary64.

(** What the driver answers to the two Overdrive5 calls made on adapter 0:
    the result code and the [Temperature] field it writes (a C [int], in
    millidegrees), and the result code for a fan percentage. *)
Record Adl : Type := mkAdl {
  Overdrive5_Temperature_Get : Z * Z;
  Overdrive5_FanSpeed_Set : Z -> Z
}.

(** Lines 116-137.  [adl] is [None] when the library could not be set
    up. *)
Definition get_temperature (adl : option Adl) : option float :=
  match adl with
  | None => None
  | Some h =>
    let '(result, temperature) := Overdrive5_Temperature_Get h in
    if negb (result =? 0) then None
    else Some (lit temperature 1000)
  end.

(** Lines 88-114: the percentage handed to the driver, if any, and the
    boolean returned. *)
Definition set_fan_speed (adl : option Adl) (speed_percent : Z)
  : option Z * bool :=
  match adl with
  | None => (None, false)
  | Some h =>
    let speed_percent := Z.max 0 (Z.min 100 speed_percent) in
    let result := Overdrive5_FanSpeed_Set h speed_percent in
    (Some speed_percent, if negb (result =? 0) then false else true)
  end.

End Hardware.

Module Persistence.
Import Binary64 FanCurve.

(** The JSON object of a curve file; either key may be missing.  The
    encoding itself is the [json] library's: what is written is taken to be
    read back as the same name and the same numbers. *)
Record curve_object : Type := mkObject {
  object_name : option string;
  object_points : option (list (point float))
}.

(** What [load_curve] finds at the path: no file, a file that cannot be
    read or decoded, or a JSON object. *)
Inductive curve_file : Type :=
| Missing
| Unreadable
| Object (data : curve_object).

(** [dict.get(key, default)]. *)
Definition get {V : Type} (value : option V) (default : V) : V :=
  match value with
  | Some v => v
  | None => default
  end.

(** Lines 193-202: the file [save_curve] leaves behind. *)
Definition save_curve (curve : FanCurve.t float) : curve_file :=
  Object (mkObject (Some (name curve)) (Some (points curve))).

(** Lines 204-217. *)
Definition load_curve (file : curve_file) : py (option (FanCurve.t float)) :=
  match file with
  | Missing => Return None
  | Unreadable => Return None
  | Object data =>
    curve <- init (get (object_name data) "Loaded"%string)
                  (Some (get (object_points data) [])) ;;
    Return (Some curve)
  end.

End Persistence.

Module Loops.
Import Binary64 Controller Hardware.

(** Lines 375-378: one pass of the loop of [apply_temp_limit], between two
    sleeps.  [adl] is what the driver answers during the pass; the result is
    the controller's state and the percentage handed to the driver, if one
    was. *)
Definition temp_limit_pass (c : Config) (s : State) (adl : Adl)
  : State * py (option Z) :=
  match get_temperature (Some adl) with
  | None => (s, Return None)
  | Some temp =>
    let (s', r) := get_fan_speed_for_temp c s (Some temp) in
    (s', fan_speed <- r ;; Return (fst (set_fan_speed (Some adl) fan_speed)))
  end.

(** The loop, run for as many passes as there are driver answers: the
    percentages handed to the driver, oldest first, and the exception that
    ended the loop, if one did. *)
Fixpoint temp_limit_loop (c : Config) (s : State) (passes : list Adl)
  : list Z * option exn :=
  match passes with
  | [] => ([], None)
  | adl :: rest =>
    match temp_limit_pass c s adl with
    | (_, Raise e) => ([], Some e)
    | (s', Return sent) =>
      let (l, e) := temp_limit_loop c s' rest in
      (match sent with Some v => v :: l | None => l end, e)
    end
  end.

(** Lines 363-382. *)
Definition apply_temp_limit (target_temp : float) (min_fan max_fan : Z)
    (passes : list Adl) : list Z * option exn :=
  match temperature_control target_temp min_fan max_fan with
  | Raise e => ([], Some e)
  | Return (c, s) => temp_limit_loop c s passes
  end.

End Loops.

Module Dialogs.
Import Binary64 FanCurve.

(** The three [IntVar]s of the sliders of [TempControlDialog], each as the
    integer its [get] returns. *)
Record TempControlDialog : Type := mkTempControlDialog {
  target_var : Z;
  min_var : Z;
  max_var : Z
}.

(** Lines 579-589: the two handlers call each other; [fuel] bounds the
    depth of the calls. *)
Fixpoint update_min_label (fuel : nat) (d : TempControlDialog)
  : option TempControlDialog :=
  match fuel with
  | O => None
  | S fuel =>
    if max_var d <? min_var d then
      update_max_label fuel
        (mkTempControlDialog (target_var d) (min_var d) (min_var d))
    else Some d
  end
with update_max_label (fuel : nat) (d : TempControlDialog)
  : option TempControlDialog :=
  match fuel with
  | O => None
  | S fuel =>
    if max_var d <? min_var d then
      update_min_label fuel
        (mkTempControlDialog (target_var d) (max_var d) (max_var d))
    else Some d
  end.

(** Lines 591-604: what the callback receives; [None] when the error box
    is shown instead and the dialog stays open. *)
Definition temp_on_ok (d : TempControlDialog) : option (Z * Z * Z) :=
  let target := target_var d in
  let min_fan := min_var d in
  let max_fan := max_var d in
  if max_fan <? min_fan then None
  else Some (target, min_fan, max_fan).

(** The name entry and the ten [IntVar]s of the five rows of
    [FanCurveDialog], each as what its [get] returns, [None] standing for
    [tk.TclError]. *)
Record FanCurveDialog : Type := mkFanCurveDialog {
  name_var : string;
  temp_vars : list (option Z);
  fan_vars : list (option Z)
}.

(** How [on_ok] ends: one of its two error boxes, or the callback called
    with a curve. *)
Inductive outcome : Type :=
| Invalid_values (i : nat)
| Not_enough_points
| Accepted (curve : FanCurve.t float).

(** [vars[i].get()] inside the [try]: an index out of range raises
    [IndexError], which [except tk.TclError] does not catch. *)
Definition var_get (vars : list (option Z)) (i : nat) : py (option Z) :=
  match nth_error vars i with
  | None => Raise IndexError
  | Some v => Return v
  end.

(** Lines 468-482: [count] more rounds of the loop from row [i] on; the
    index of the row that stops it, or the points collected. *)
Fixpoint collect (d : FanCurveDialog) (count i : nat)
    (valid_points : list (Z * Z)) : py (nat + list (Z * Z)) :=
  match count with
  | O => Return (inr valid_points)
  | S count =>
    temp <- var_get (temp_vars d) i ;;
    match temp with
    | None => collect d count (S i) valid_points
    | Some temp =>
      fan <- var_get (fan_vars d) i ;;
      match fan with
      | None => collect d count (S i) valid_points
      | Some fan =>
        if 0 <? temp then
          if (0 <=? temp) && (temp <=? 110) && ((0 <=? fan) && (fan <=? 100))
          then collect d count (S i) (valid_points ++ [(temp, fan)])
          else Return (inl i)
        else collect d count (S i) valid_points
      end
    end
  end.

(** Lines 465-493; the integers of the rows become the curve's numbers. *)
Definition curve_on_ok (d : FanCurveDialog) : py outcome :=
  collected <- collect d 5 0 [] ;;
  match collected with
  | inl i => Return (Invalid_values i)
  | inr valid_points =>
    if (length valid_points <? 2)%nat then Return Not_enough_points
    else
      let name := if String.eqb (name_var d) EmptyString then "Custom"%string
                  else name_var d in
      result <- init name
                  (Some (map (fun p : Z * Z => (fl (fst p), fl (snd p)))
                             valid_points)) ;;
      Return (Accepted result)
  end.

End Dialogs.

(** * Facts *)

(** ** Lists *)

Module ListFacts.

Lemma last_cons {A} (p q : A) l d : last (p :: q :: l) d = last (q :: l) p.
Proof.
  revert p q d. induction l as [ | r l IH]; intros p q d; [reflexivity | ].
  change (last (p :: q :: r :: l) d) with (last (q :: r :: l) d).
  rewrite (IH q r d), (IH q r p). reflexivity.
Qed.

Lemma last_In {A} (p : A) l d : In (last (p :: l) d) (p :: l).
Proof.
  revert p. induction l as [ | q l IH]; intros p; [now left | ].
  right. change (last (p :: q :: l) d) with (last (q :: l) d). apply IH.
Qed.

End ListFacts.

(** ** Binary64: order, rounding and sign *)

Module Binary64Facts.
Import Binary64.

Ltac cmp_cases :=
  repeat match goal with
  | H : context [Pos.compare_cont Eq ?a ?b] |- _ =>
      change (Pos.compare_cont Eq a b) with (Pos.compare a b) in H
  | |- context [Pos.compare_cont Eq ?a ?b] =>
      change (Pos.compare_cont Eq a b) with (Pos.compare a b)
  end;
  repeat match goal with
  | H : context [Z.compare ?a ?b] |- _ => destruct (Z.compare_spec a b)
  | |- context [Z.compare ?a ?b] => destruct (Z.compare_spec a b)
  | H : context [Pos.compare ?a ?b] |- _ => destruct (Pos.compare_spec a b)
  | |- context [Pos.compare ?a ?b] => destruct (Pos.compare_spec a b)
  end.

Ltac float_order :=
  unfold ltb, leb, SFltb, SFleb, SFcompare, is_nan; intros;
  repeat match goal with x : float |- _ => destruct x end;
  repeat match goal with s : bool |- _ => destruct s end;
  simpl in *; try congruence; try reflexivity;
  cmp_cases; simpl in *; subst; try congruence; try reflexivity; try lia.

Lemma ltb_leb a b : ltb a b = true -> leb a b = true.
Proof. float_order. Qed.

Lemma leb_false_ltb a b : is_nan a = false -> is_nan b = false -> leb a b = false -> ltb b a = true.
Proof. float_order. Qed.

Lemma ltb_leb_false a b : ltb a b = true -> leb b a = false.
Proof. float_order. Qed.

Lemma ltb_leb_trans a b c : ltb a b = true -> leb b c = true -> ltb a c = true.
Proof. float_order. Qed.

Lemma leb_ltb_trans a b c : leb a b = true -> ltb b c = true -> ltb a c = true.
Proof. float_order. Qed.
Lemma leb_trans a b c : leb a b = true -> leb b c = true -> leb a c = true.
Proof. float_order. Qed.

Lemma digits2_pos_bounds m :
  2 ^ (Zpos (digits2_pos m) - 1) <= Zpos m < 2 ^ Zpos (digits2_pos m).
Proof.
  induction m as [p IH | p IH | ]; cbn [digits2_pos].
  - rewrite Pos2Z.inj_succ, Z.pow_succ_r by lia.
    replace (Z.succ (Zpos (digits2_pos p)) - 1) with (Z.succ (Zpos (digits2_pos p) - 1)) by lia.
    rewrite Z.pow_succ_r by lia. lia.
  - rewrite Pos2Z.inj_succ, Z.pow_succ_r by lia.
    replace (Z.succ (Zpos (digits2_pos p)) - 1) with (Z.succ (Zpos (digits2_pos p) - 1)) by lia.
    rewrite Z.pow_succ_r by lia. lia.
  - cbn. lia.
Qed.

Lemma shr_1_m mrs : 0 <= shr_m mrs -> shr_m (shr_1 mrs) = Z.div2 (shr_m mrs).
Proof.
  destruct mrs as [m r s]; cbn [shr_m]; intros Hm.
  destruct m as [ | [p|p| ] | p]; cbn; try reflexivity; lia.
Qed.

Lemma shr_1_nonneg mrs : 0 <= shr_m mrs -> 0 <= shr_m (shr_1 mrs).
Proof.
  intros Hm. rewrite shr_1_m by assumption.
  rewrite Z.div2_div. apply Z.div_pos; lia.
Qed.

Lemma pow2_xO p : 2 ^ Zpos p~0 = 2 ^ Zpos p * 2 ^ Zpos p.
Proof. rewrite Pos2Z.inj_xO, <- Z.pow_add_r by lia. f_equal. lia. Qed.

Lemma pow2_xI p : 2 ^ Zpos p~1 = 2 * (2 ^ Zpos p * 2 ^ Zpos p).
Proof.
  rewrite Pos2Z.inj_xI, <- Z.pow_add_r by lia.
  replace (2 * Zpos p + 1) with (Z.succ (Zpos p + Zpos p)) by lia.
  now rewrite Z.pow_succ_r by lia.
Qed.

Lemma iter_pos_shr_m p : forall mrs, 0 <= shr_m mrs ->
  shr_m (iter_pos shr_1 p mrs) = shr_m mrs / 2 ^ Zpos p.
Proof.
  induction p as [p IH | p IH | ]; intros mrs Hm; cbn [iter_pos].
  - assert (H1 : 0 <= shr_m (shr_1 mrs)) by now apply shr_1_nonneg.
    assert (H2 : 0 <= shr_m (iter_pos shr_1 p (shr_1 mrs))).
    { rewrite IH by assumption. apply Z.div_pos; lia. }
    rewrite IH, IH, shr_1_m by assumption.
    rewrite Z.div2_div, !Z.div_div by lia.
    now rewrite pow2_xI.
  - assert (H2 : 0 <= shr_m (iter_pos shr_1 p mrs)).
    { rewrite IH by assumption. apply Z.div_pos; lia. }
    rewrite IH, IH by assumption.
    rewrite !Z.div_div by lia.
    now rewrite pow2_xO.
  - rewrite shr_1_m by assumption. now rewrite Z.div2_div.
Qed.

Lemma shr_record_of_loc_m m l : shr_m (shr_record_of_loc m l) = m.
Proof. destruct l as [ | [ | | ]]; reflexivity. Qed.

Lemma shr_fexp_pos m e l :
  0 < m -> emin64 <= e ->
  0 < shr_m (fst (shr_fexp prec emax m e l)) /\ emin64 <= snd (shr_fexp prec emax m e l).
Proof.
  intros Hm He. unfold shr_fexp, shr.
  destruct m as [ | m | m]; try lia.
  cbn [Zdigits2].
  pose proof (digits2_pos_bounds m) as Hd.
  set (d := Zpos (digits2_pos m)) in *.
  destruct (fexp prec emax (d + e) - e) as [ | n | n] eqn:En; cbn [fst snd];
    rewrite ?shr_record_of_loc_m; try (split; lia).
  unfold fexp in En. fold emin64 in En.
  assert (Hn : Zpos n = d - prec) by (unfold emin64, emin, prec, emax in *; lia).
  rewrite iter_pos_shr_m by (rewrite shr_record_of_loc_m; lia).
  rewrite shr_record_of_loc_m. split; [ | lia].
  apply Z.div_str_pos. split; [apply Z.pow_pos_nonneg; lia | ].
  rewrite Hn. apply Z.le_trans with (2 ^ (d - 1)); [ | lia].
  apply Z.pow_le_mono_r; unfold prec; lia.
Qed.

Lemma round_nearest_even_ge m l : m <= round_nearest_even m l.
Proof. destruct l as [ | [ | | ]]; cbn; try lia. destruct (Z.even m); lia. Qed.

Lemma binary_round_aux_nonzero s m e l :
  0 < m -> emin64 <= e -> is_zero (binary_round_aux prec emax s m e l) = false.
Proof.
  intros Hm He. unfold binary_round_aux.
  pose proof (shr_fexp_pos m e l Hm He) as [H1 H2].
  destruct (shr_fexp prec emax m e l) as [mrs' e'] eqn:E1. cbn [fst snd] in H1, H2.
  pose proof (round_nearest_even_ge (shr_m mrs') (loc_of_shr_record mrs')) as Hr.
  set (m1 := round_nearest_even (shr_m mrs') (loc_of_shr_record mrs')) in *.
  assert (Hm1 : 0 < m1) by lia.
  pose proof (shr_fexp_pos m1 e' loc_Exact Hm1 H2) as [H3 H4].
  destruct (shr_fexp prec emax m1 e' loc_Exact) as [mrs'' e''] eqn:E2. cbn [fst snd] in H3, H4.
  destruct (shr_m mrs'') as [ | q | q]; try lia.
  now destruct (e'' <=? emax - prec).
Qed.

Lemma fexp_ge_emin e : emin64 <= fexp prec emax e.
Proof. unfold fexp, emin64. lia. Qed.

Lemma binary_round_nonzero s m e :
  emin64 <= e -> is_zero (binary_round prec emax s m e) = false.
Proof.
  intros He. unfold binary_round, shl_align.
  set (f := fexp prec emax (Zpos (digits2_pos m) + e)).
  pose proof (fexp_ge_emin (Zpos (digits2_pos m) + e)) as Hf. fold f in Hf.
  destruct (f - e) as [ | n | n] eqn:En; apply binary_round_aux_nonzero; lia.
Qed.

Lemma binary_normalize_nonzero m e sz :
  m <> 0 -> emin64 <= e -> is_zero (binary_normalize prec emax m e sz) = false.
Proof.
  intros Hm He. destruct m; [congruence | | ]; cbn; now apply binary_round_nonzero.
Qed.

Lemma iter_xO_value m d : Zpos (Pos.iter xO m d) = Zpos m * 2 ^ Zpos d.
Proof.
  induction d as [ | d IH] using Pos.peano_ind.
  - cbn. lia.
  - rewrite Pos.iter_succ, Pos2Z.inj_xO, IH, Pos2Z.inj_succ, Z.pow_succ_r by lia. lia.
Qed.

Lemma shl_align_value m e ez :
  ez <= e -> Zpos (fst (shl_align m e ez)) = Zpos m * 2 ^ (e - ez).
Proof.
  intros He. unfold shl_align.
  destruct (ez - e) as [ | d | d] eqn:Ed; cbn [fst]; try lia.
  - replace (e - ez) with 0 by lia. cbn. lia.
  - rewrite iter_xO_value. f_equal. f_equal. lia.
Qed.

(** What validity says of a finite double. *)
Lemma bounded_inv m e :
  bounded prec emax m e = true ->
  emin64 <= e /\ Zpos (digits2_pos m) <= prec /\
  (emin64 < e -> Zpos (digits2_pos m) = prec).
Proof.
  unfold bounded, canonical_mantissa, fexp. fold emin64.
  intros H. apply andb_prop in H as [H _]. apply Z.eqb_eq in H.
  unfold emin64, emin, prec, emax in *. lia.
Qed.

Lemma aligned_lt ma ea mb eb :
  bounded prec emax ma ea = true -> bounded prec emax mb eb = true ->
  ea < eb ->
  Zpos (fst (shl_align ma ea (Z.min eb ea))) < Zpos (fst (shl_align mb eb (Z.min eb ea))).
Proof.
  intros Ha Hb Hlt.
  apply bounded_inv in Ha as (Ha1 & Ha2 & _).
  apply bounded_inv in Hb as (Hb1 & _ & Hb3).
  rewrite !shl_align_value by lia.
  replace (Z.min eb ea) with ea by lia.
  replace (ea - ea) with 0 by lia. rewrite Z.pow_0_r, Z.mul_1_r.
  pose proof (digits2_pos_bounds ma) as [_ Hma].
  pose proof (digits2_pos_bounds mb) as [Hmb _].
  rewrite Hb3 in Hmb by lia.
  assert (H1 : 2 ^ Zpos (digits2_pos ma) <= 2 ^ prec)
    by (apply Z.pow_le_mono_r; lia).
  assert (H2 : 2 ^ 1 <= 2 ^ (eb - ea)) by (apply Z.pow_le_mono_r; lia).
  assert (H3 : 2 ^ prec = 2 ^ (prec - 1) * 2 ^ 1) by reflexivity.
  assert (H4 : 0 < 2 ^ (prec - 1)) by reflexivity.
  nia.
Qed.

Lemma aligned_same m e : Zpos (fst (shl_align m e (Z.min e e))) = Zpos m.
Proof. rewrite shl_align_value by lia. replace (e - Z.min e e) with 0 by lia. cbn. lia. Qed.

Lemma sub_nonzero a b :
  valid a -> valid b -> ltb a b = true -> is_zero (sub b a) = false.
Proof.
  unfold valid, ltb, SFltb.
  destruct a as [sa | sa | | sa ma ea], b as [sb | sb | | sb mb eb];
    cbn [valid_binary SFcompare]; intros Ha Hb Hlt;
    try discriminate; try reflexivity;
    try (now destruct sa); try (now destruct sb); try (now destruct sa, sb).
  unfold sub, SFsub.
  apply binary_normalize_nonzero.
  2:{ apply bounded_inv in Ha as (Ha1 & _). apply bounded_inv in Hb as (Hb1 & _). lia. }
  destruct sa, sb; cbn [cond_Zopp]; try discriminate; try lia.
  - destruct (Z.compare_spec ea eb) as [E | E | E]; try discriminate.
    + subst eb. rewrite !aligned_same.
      change (Pos.compare_cont Eq ma mb) with (Pos.compare ma mb) in Hlt.
      destruct (Pos.compare_spec ma mb); cbn in Hlt; try discriminate. lia.
    + pose proof (aligned_lt mb eb ma ea Hb Ha E) as H.
      rewrite Z.min_comm in H. lia.
  - destruct (Z.compare_spec ea eb) as [E | E | E]; try discriminate.
    + subst eb. rewrite !aligned_same.
      change (Pos.compare_cont Eq ma mb) with (Pos.compare ma mb) in Hlt.
      destruct (Pos.compare_spec ma mb); cbn in Hlt; try discriminate. lia.
    + pose proof (aligned_lt ma ea mb eb Ha Hb E) as H. lia.
Qed.

Lemma binary_round_aux_sign m e l :
  nonnegative (binary_round_aux prec emax false m e l).
Proof.
  unfold binary_round_aux.
  destruct (shr_fexp prec emax m e l) as [mrs' e'].
  destruct (shr_fexp prec emax _ e' loc_Exact) as [mrs'' e''].
  destruct (shr_m mrs''); [exact I | | exact I].
  destruct (_ <=? _); exact I.
Qed.

Lemma fl_nonnegative z : 0 <= z -> nonnegative (fl z).
Proof.
  destruct z as [ | p | p]; intros Hz; cbn; auto; try lia.
  unfold binary_round. destruct (shl_align p 0 _) as [mz ez].
  apply binary_round_aux_sign.
Qed.

Lemma of_int_nonnegative z f :
  0 <= z -> of_int z = Return f -> nonnegative f.
Proof.
  intros Hz. unfold of_int. pose proof (fl_nonnegative z Hz) as Hn.
  destruct (fl z); intros E; inversion E; subst; assumption.
Qed.

Lemma mul_nonnegative x m e :
  nonnegative x -> nonnegative (mul x (S754_finite false m e)).
Proof.
  destruct x as [s | s | | s mx ex]; cbn; auto.
  destruct s; [contradiction | intros _].
  apply binary_round_aux_sign.
Qed.

Lemma to_int_nonnegative x k :
  nonnegative x -> to_int x = Return k -> 0 <= k.
Proof.
  destruct x as [s | s | | s m e]; cbn; intros Hx E; inversion E; subst; try lia.
  destruct s; [contradiction | ]. cbn. apply Z.shiftl_nonneg. lia.
Qed.

End Binary64Facts.

(** ** The adaptive controller *)

Module ControllerFacts.
Import Binary64 Controller Binary64Facts.

Lemma push_history_length h t :
  (length h <= 10)%nat ->
  (length (push_history h t) <= 10)%nat /\ (1 <= length (push_history h t))%nat.
Proof.
  intros Hh. unfold push_history, history_max_size.
  assert (Hl : length (h ++ [t]) = S (length h)) by (rewrite length_app; cbn; lia).
  destruct (Nat.ltb_spec 10 (length (h ++ [t]))) as [Hlt | Hge].
  - destruct (h ++ [t]) as [ | x r]; cbn in *; lia.
  - lia.
Qed.

Lemma update_mode_total c h t a n :
  exists a' n', update_mode c h t a n = Return (a', n').
Proof.
  unfold update_mode.
  destruct (Nat.leb_spec 4 (length h)) as [Hlen | Hlen]; [ | eauto].
  destruct h as [ | x r]; [cbn in Hlen; lia | ].
  cbn [py_max py_min bind].
  match goal with |- context [if ?b then _ else _] => destruct b end; eauto.
Qed.

Lemma observe_total c s t :
  exists a n,
    update_mode c (push_history (temp_history s) t) t
                (aggressive_mode s) (stable_counter s) = Return (a, n) /\
    observe c s t =
      Return (mkState (last_fan_speed s) (push_history (temp_history s) t) a n).
Proof.
  destruct (update_mode_total c (push_history (temp_history s) t) t
              (aggressive_mode s) (stable_counter s)) as (a & n & E).
  exists a, n. split; [exact E | ]. unfold observe. now rewrite E.
Qed.

(** A call with a sample changes the history, mode and counter as lines
    242-261 say, whatever happens afterwards. *)
Lemma call_state c s t :
  exists a n,
    update_mode c (push_history (temp_history s) t) t
                (aggressive_mode s) (stable_counter s) = Return (a, n) /\
    temp_history (fst (get_fan_speed_for_temp c s (Some t)))
      = push_history (temp_history s) t /\
    aggressive_mode (fst (get_fan_speed_for_temp c s (Some t))) = a /\
    stable_counter (fst (get_fan_speed_for_temp c s (Some t))) = n.
Proof.
  destruct (observe_total c s t) as (a & n & E & Ho).
  exists a, n. split; [exact E | ].
  unfold get_fan_speed_for_temp. rewrite Ho.
  destruct (new_fan c _ t); cbn; auto.
Qed.

Lemma reachable_invariant c s :
  reachable c s ->
  (length (temp_history s) <= 10)%nat /\
  0 <= stable_counter s /\
  (aggressive_mode s = true -> stable_counter s < 6).
Proof.
  induction 1 as [ | s x Hr (Hlen & Hpos & Hagg)].
  - cbn. repeat split; lia.
  - destruct x as [t | ]; [ | cbn; auto].
    destruct (call_state c s t) as (a & n & E & -> & -> & ->).
    split; [now apply push_history_length | ].
    unfold update_mode, stable_required in E.
    destruct (4 <=? length (push_history (temp_history s) t))%nat.
    + destruct (py_max _); [ | discriminate]. destruct (py_min _); [ | discriminate].
      cbn [bind] in E.
      match type of E with (if ?b then _ else _) = _ => destruct b end;
        inversion E; subst; clear E.
      * split; [lia | ].
        destruct (Z.leb_spec 6 (stable_counter s + 1)); cbn [andb].
        -- destruct (aggressive_mode s); [discriminate | discriminate].
        -- intros Ha. lia.
      * split; lia.
    + inversion E; subst. auto.
Qed.


(** C4: a call with an unavailable reading ([None]) returns the last speed
    and leaves the whole state (last speed, history, mode, counter) as it
    was. *)
Theorem unavailable_reading_holds c s :
  get_fan_speed_for_temp c s None = (s, Return (last_fan_speed s)).
Proof. reflexivity. Qed.

Lemma observe_last c s t s1 :
  observe c s t = Return s1 ->
  last_fan_speed s1 = last_fan_speed s /\
  temp_history s1 = push_history (temp_history s) t.
Proof.
  intros Ho. destruct (observe_total c s t) as (a & n & _ & E).
  rewrite E in Ho. inversion Ho; subst. now cbn.
Qed.

(** C2: when the update rule yields a candidate, it becomes the new last
    speed and the returned value exactly when it differs from the last speed
    by at least 2 or the temperature is off target by more than 3; otherwise
    the last speed is kept and returned. *)
Theorem hysteresis_gate c s t s1 candidate :
  observe c s t = Return s1 ->
  new_fan c s1 t = Return candidate ->
  let out := get_fan_speed_for_temp c s (Some t) in
  let committed :=
    2 <= Z.abs (candidate - last_fan_speed s)
    \/ ltb (fl 3) (abs (sub t (target_temp c))) = true in
  (committed ->
     last_fan_speed (fst out) = candidate /\ snd out = Return candidate) /\
  (~ committed ->
     last_fan_speed (fst out) = last_fan_speed s /\
     snd out = Return (last_fan_speed s)).
Proof.
  intros Ho Hn. destruct (observe_last c s t s1 Ho) as [Hl _].
  cbv zeta. unfold get_fan_speed_for_temp. rewrite Ho, Hn. unfold gate.
  rewrite Hl. cbn [fst snd last_fan_speed].
  destruct (Z.leb_spec 2 (Z.abs (candidate - last_fan_speed s))) as [H2 | H2];
    destruct (ltb (fl 3) (abs (sub t (target_temp c)))) eqn:H3; cbn [orb];
    split; intros H; auto; try (exfalso; apply H; auto; fail).
  destruct H as [H | H]; [lia | discriminate].
Qed.

(** C1, as amended: with [diff] the sample minus the target, and the mode
    and history as they are once this sample is recorded, the candidate is
    [min(maxFan, last + a)] when [diff > 0], where [a] is
    [max(minStep, int(diff * overGain))], replaced by [int(a * 1.5)] when the
    history has 3 samples or more and the latest exceeds the one two before
    it; otherwise it is [max(minFan, last - int(a * damping))] with [a] being
    [max(minStep, int(|diff| * underGain))] and [damping] 0.7 (aggressive) or
    0.5 (gentle).  [int] truncates toward zero; the gains and the least step
    are (2.5, 1.5, 3) in aggressive and (1.5, 0.8, 1) in gentle mode. *)
Theorem update_rule c s t s1 :
  observe c s t = Return s1 ->
  let diff := sub t (target_temp c) in
  let h := temp_history s1 in
  let over := if aggressive_mode s1 then lit 25 10 else lit 15 10 in
  let under := if aggressive_mode s1 then lit 15 10 else lit 8 10 in
  let min_step := if aggressive_mode s1 then 3 else 1 in
  let damping := if aggressive_mode s1 then lit 7 10 else lit 5 10 in
  let still_climbing :=
    (3 <= length h)%nat /\ ltb (from_end h 3) (from_end h 1) = true in
  h = push_history (temp_history s) t /\
  (ltb zero diff = true ->
   forall k, to_int (mul diff over) = Return k ->
     (~ still_climbing ->
      new_fan c s1 t =
        Return (Z.min (max_fan c) (last_fan_speed s + Z.max min_step k))) /\
     (still_climbing ->
      forall f k', of_int (Z.max min_step k) = Return f ->
        to_int (mul f (lit 15 10)) = Return k' ->
        new_fan c s1 t = Return (Z.min (max_fan c) (last_fan_speed s + k')))) /\
  (ltb zero diff = false ->
   forall k f k', to_int (mul (abs diff) under) = Return k ->
     of_int (Z.max min_step k) = Return f ->
     to_int (mul f damping) = Return k' ->
     new_fan c s1 t = Return (Z.max (min_fan c) (last_fan_speed s - k'))).
Proof.
  intros Ho. destruct (observe_last c s t s1 Ho) as [Hl Hh].
  cbv zeta. split; [exact Hh | ].
  unfold new_fan, over_target_gain, under_target_gain, min_adjustment.
  rewrite Hl. split.
  - intros Hd k Hk. rewrite Hd, Hk. cbn [bind]. unfold climbing. split.
    + intros Hc.
      destruct (Nat.leb_spec 3 (length (temp_history s1))) as [H3 | H3]; cbn [andb bind];
        [ | reflexivity].
      destruct (ltb (from_end (temp_history s1) 3) (from_end (temp_history s1) 1)) eqn:E;
        [exfalso; apply Hc; auto | reflexivity].
    + intros [H3 E] f k' Hf Hk'.
      apply Nat.leb_le in H3. rewrite H3, E. cbn [andb].
      rewrite Hf. cbn [bind]. rewrite Hk'. reflexivity.
  - intros Hd k f k' Hk Hf Hk'. rewrite Hd, Hk. cbn [bind].
    rewrite Hf. cbn [bind]. rewrite Hk'. reflexivity.
Qed.


Lemma push_history_window h t :
  (length h <= 10)%nat ->
  push_history h t = skipn (length h + 1 - 10) (h ++ [t]).
Proof.
  intros Hh. unfold push_history, history_max_size.
  assert (Hl : length (h ++ [t]) = S (length h)) by (rewrite length_app; cbn; lia).
  rewrite Hl.
  destruct (Nat.ltb_spec 10 (S (length h))) as [Hlt | Hge].
  - replace (length h + 1 - 10)%nat with 1%nat by lia.
    destruct (h ++ [t]); reflexivity.
  - replace (length h + 1 - 10)%nat with 0%nat by lia. reflexivity.
Qed.



(** The literals that scale an adjustment are positive doubles. *)
Lemma scale_literals :
  (exists m e, lit 15 10 = S754_finite false m e) /\
  (exists m e, lit 7 10 = S754_finite false m e) /\
  (exists m e, lit 5 10 = S754_finite false m e).
Proof. repeat split; vm_compute; eauto. Qed.

Lemma scaled_adjustment a g f k :
  0 <= a -> (exists m e, g = S754_finite false m e) ->
  of_int a = Return f -> to_int (mul f g) = Return k -> 0 <= k.
Proof.
  intros Ha (m & e & ->) Hf Hk.
  eapply to_int_nonnegative; [ | exact Hk].
  apply mul_nonnegative. eapply of_int_nonnegative; eauto.
Qed.

Lemma new_fan_bounds c s t v :
  min_fan c <= max_fan c ->
  min_fan c <= last_fan_speed s <= max_fan c ->
  new_fan c s t = Return v ->
  min_fan c <= v <= max_fan c.
Proof.
  intros Hc Hs. unfold new_fan.
  destruct scale_literals as (L15 & L7 & L5).
  assert (Hmin : 1 <= min_adjustment (aggressive_mode s))
    by (unfold min_adjustment; destruct (aggressive_mode s); lia).
  destruct (ltb zero (sub t (target_temp c))).
  - destruct (to_int (mul _ (over_target_gain _))) as [k | ]; [ | discriminate].
    cbn [bind].
    destruct (climbing (temp_history s)).
    + destruct (of_int _) as [f | ] eqn:Ef; [ | discriminate]. cbn [bind].
      destruct (to_int (mul f _)) as [k' | ] eqn:Ek; [ | discriminate].
      cbn [bind]. intros E; inversion E; subst.
      assert (0 <= k') by (eapply scaled_adjustment; [ | exact L15 | exact Ef | exact Ek]; lia).
      lia.
    + cbn [bind]. intros E; inversion E; subst. lia.
  - destruct (to_int (mul _ (under_target_gain _))) as [k | ]; [ | discriminate].
    cbn [bind].
    destruct (of_int _) as [f | ] eqn:Ef; [ | discriminate]. cbn [bind].
    destruct (to_int (mul f _)) as [k' | ] eqn:Ek; [ | discriminate].
    cbn [bind]. intros E; inversion E; subst.
    assert (0 <= k').
    { eapply scaled_adjustment; [ | | exact Ef | exact Ek]; [lia | ].
      destruct (aggressive_mode s); assumption. }
    lia.
Qed.

Lemma call_bounds c s x :
  min_fan c <= max_fan c ->
  min_fan c <= last_fan_speed s <= max_fan c ->
  min_fan c <= last_fan_speed (fst (get_fan_speed_for_temp c s x)) <= max_fan c /\
  forall v, snd (get_fan_speed_for_temp c s x) = Return v ->
            min_fan c <= v <= max_fan c.
Proof.
  intros Hc Hs. destruct x as [t | ].
  2:{ cbn. split; [exact Hs | ]. intros v E; inversion E; subst; exact Hs. }
  unfold get_fan_speed_for_temp.
  destruct (observe c s t) as [s1 | e] eqn:Ho.
  2:{ cbn. split; [exact Hs | discriminate]. }
  destruct (observe_last c s t s1 Ho) as [Hl _].
  destruct (new_fan c s1 t) as [cand | e] eqn:Hn.
  2:{ cbn [fst snd]. rewrite Hl. split; [exact Hs | discriminate]. }
  assert (Hb : min_fan c <= cand <= max_fan c).
  { eapply new_fan_bounds; [exact Hc | | exact Hn]. now rewrite Hl. }
  cbn [fst snd last_fan_speed].
  assert (min_fan c <= (if gate c (last_fan_speed s1) cand t
                        then cand else last_fan_speed s1) <= max_fan c)
    by (destruct (gate _ _ _ _); [exact Hb | now rewrite Hl]).
  split; [assumption | ]. intros v E; inversion E; subst; assumption.
Qed.

(** C9: a session built with [lo <= hi] starts with the last speed [lo], and
    in every state it reaches the last speed lies in [[lo, hi]], any call
    keeps it there, and every speed a call returns lies there too. *)
Theorem fan_speed_within_bounds target lo hi c s0 :
  temperature_control target lo hi = Return (c, s0) ->
  lo <= hi ->
  last_fan_speed s0 = lo /\
  forall s, reachable c s ->
    lo <= last_fan_speed s <= hi /\
    forall x,
      lo <= last_fan_speed (fst (get_fan_speed_for_temp c s x)) <= hi /\
      forall v, snd (get_fan_speed_for_temp c s x) = Return v -> lo <= v <= hi.
Proof.
  intros E Hc. inversion E; subst; clear E.
  split; [reflexivity | ].
  set (c := mkConfig target lo hi).
  assert (Hinv : forall s, reachable c s -> lo <= last_fan_speed s <= hi).
  { induction 1 as [ | s x Hr IH]; [cbn; lia | ].
    exact (proj1 (call_bounds c s x Hc IH)). }
  intros s Hr. split; [now apply Hinv | ].
  intros x. apply (call_bounds c s x Hc (Hinv s Hr)).
Qed.

(** The closed facts about the sample 80.0 against the target 70. *)
Lemma hot_facts :
  ltb (abs (sub hot (fl 70))) (lit 30 10) = false /\
  ltb zero (sub hot (fl 70)) = true /\
  to_int (mul (sub hot (fl 70)) (lit 25 10)) = Return 25 /\
  ltb (fl 3) (abs (sub hot (fl 70))) = true /\
  ltb hot hot = false.
Proof. repeat split; vm_compute; reflexivity. Qed.

Lemma push_history_all_hot h :
  Forall (eq hot) h -> Forall (eq hot) (push_history h hot).
Proof.
  intros Hh. unfold push_history.
  assert (Hall : Forall (eq hot) (h ++ [hot]))
    by (apply Forall_app; split; [assumption | repeat constructor]).
  destruct (_ <? _)%nat; [ | exact Hall].
  destruct (h ++ [hot]); [constructor | now inversion Hall].
Qed.

Lemma not_climbing h : Forall (eq hot) h -> climbing h = false.
Proof.
  intros Hh. unfold climbing, from_end.
  destruct (Nat.leb_spec 3 (length h)) as [H3 | H3]; [ | reflexivity].
  cbn [andb].
  rewrite Forall_forall in Hh.
  rewrite <- (Hh (nth (length h - 3) h S754_nan)) by (apply nth_In; lia).
  rewrite <- (Hh (nth (length h - 1) h S754_nan)) by (apply nth_In; lia).
  apply hot_facts.
Qed.

Lemma hot_call s :
  all_hot s ->
  let out := get_fan_speed_for_temp hot_config s (Some hot) in
  all_hot (fst out) /\
  last_fan_speed (fst out) = Z.min 100 (last_fan_speed s + 25) /\
  snd out = Return (Z.min 100 (last_fan_speed s + 25)).
Proof.
  intros [Ha Hh]. cbv zeta.
  destruct hot_facts as (F1 & F2 & F3 & F4 & _).
  pose proof (push_history_all_hot _ Hh) as Hh'.
  assert (Ho : observe hot_config s hot =
               Return (mkState (last_fan_speed s)
                         (push_history (temp_history s) hot) true
                         (if (4 <=? length (push_history (temp_history s) hot))%nat
                          then 0 else stable_counter s))).
  { unfold observe, update_mode. rewrite Ha.
    destruct (4 <=? length (push_history (temp_history s) hot))%nat eqn:E4;
      [ | reflexivity].
    destruct (push_history (temp_history s) hot) as [ | x r];
      [discriminate | ].
    cbn [py_max py_min bind target_temp hot_config].
    rewrite F1. reflexivity. }
  unfold get_fan_speed_for_temp. rewrite Ho.
  unfold new_fan, gate.
  cbn [target_temp max_fan min_fan hot_config aggressive_mode temp_history
       last_fan_speed over_target_gain min_adjustment].
  rewrite F2, F3, F4, (not_climbing _ Hh').
  cbn [bind]. rewrite orb_true_r.
  cbn [fst snd last_fan_speed aggressive_mode temp_history].
  replace (Z.max 3 25) with 25 by reflexivity.
  repeat split; assumption.
Qed.

Lemma hot_run n : forall s,
  all_hot s ->
  snd (run hot_config s (repeat (Some hot) n)) =
  map (fun k => Return (Z.min 100 (last_fan_speed s + 25 * Z.of_nat k)))
      (seq 1 n).
Proof.
  induction n as [ | n IH]; intros s Hs; [reflexivity | ].
  cbn [repeat run].
  destruct (hot_call s Hs) as (Hs' & Hl & Hr).
  destruct (get_fan_speed_for_temp hot_config s (Some hot)) as [s1 r].
  cbn [fst snd] in *. specialize (IH s1 Hs').
  destruct (run hot_config s1 (repeat (Some hot) n)) as [s2 rs].
  cbn [snd] in *. subst r rs.
  cbn [seq map].
  replace (last_fan_speed s + 25 * Z.of_nat 1) with (last_fan_speed s + 25) by lia.
  f_equal.
  rewrite <- (seq_shift n 1), map_map. apply map_ext. intros k.
  f_equal. lia.
Qed.

(** C8: the controller built for target 70 and bounds 30 and 100, fed the
    sample 80.0 any number of times, returns a speed at every call; the
    speeds never decrease, never exceed the upper bound 100, and are 100
    from the third call on. *)
Theorem constant_hot_sequence n :
  exists c s0 speeds,
    temperature_control (fl 70) 30 100 = Return (c, s0) /\
    snd (run c s0 (repeat (Some (fl 80)) n)) = map Return speeds /\
    length speeds = n /\
    (forall i j, (i <= j < n)%nat -> nth i speeds 0 <= nth j speeds 0) /\
    (forall i, (i < n)%nat -> nth i speeds 0 <= max_fan c) /\
    (forall i, (2 <= i < n)%nat -> nth i speeds 0 = 100).
Proof.
  set (speed := fun k : nat => Z.min 100 (30 + 25 * Z.of_nat k)).
  exists hot_config, (initial hot_config), (map speed (seq 1 n)).
  assert (Hnth : forall i, (i < n)%nat ->
            nth i (map speed (seq 1 n)) 0 = speed (S i)).
  { intros i Hi. rewrite (nth_indep _ 0 (speed 0%nat)) by (rewrite length_map, length_seq; lia).
    rewrite map_nth, seq_nth by lia. reflexivity. }
  split; [reflexivity | ]. split.
  { change (fl 80) with hot.
    rewrite (hot_run n (initial hot_config)) by (split; [reflexivity | constructor]).
    rewrite map_map. reflexivity. }
  split; [now rewrite length_map, length_seq | ].
  repeat split.
  - intros i j Hij. rewrite !Hnth by lia. unfold speed. lia.
  - intros i Hi. rewrite Hnth by lia. unfold speed. cbn. lia.
  - intros i Hi. rewrite Hnth by lia. unfold speed. lia.
Qed.

Lemma run_reachable c samples : forall s,
  reachable c s -> reachable c (fst (run c s samples)).
Proof.
  induction samples as [ | x rest IH]; intros s Hs; [exact Hs | ].
  cbn [run].
  pose proof (reach_call c s x Hs) as H1.
  destruct (get_fan_speed_for_temp c s x) as [s1 r]. cbn [fst] in H1.
  specialize (IH s1 H1).
  destruct (run c s1 rest) as [s2 rs]. exact IH.
Qed.

(** C1, counterexample: at the first sample 71.9 against the target 70 the
    code adds [int(4.75) = 4] where rounding gives 5, and at the sample 68.0
    after one sample 80.0 it subtracts [int(3 * 0.7) = 2] where the scaled
    adjustment is 2.1. *)
Lemma update_rule_truncates :
  observe hot_config (initial hot_config) (lit 719 10)
    = Return (mkState 30 [lit 719 10] true 0) /\
  new_fan hot_config (mkState 30 [lit 719 10] true 0) (lit 719 10) = Return 34 /\
  Spec.candidate hot_config (mkState 30 [lit 719 10] true 0) (lit 719 10)
    = Return (fl 35) /\
  observe hot_config (mkState 55 [fl 80] true 0) (fl 68)
    = Return (mkState 55 [fl 80; fl 68] true 0) /\
  new_fan hot_config (mkState 55 [fl 80; fl 68] true 0) (fl 68) = Return 53 /\
  Spec.candidate hot_config (mkState 55 [fl 80; fl 68] true 0) (fl 68)
    = Return (lit 529 10) /\
  ltb (fl 34) (fl 35) = true /\ ltb (lit 529 10) (fl 53) = true.
Proof. repeat split; vm_compute; reflexivity. Qed.

(** Witness of [update_rule]: a first sample 71.9 (increase, two samples
    short of a trend), the sample 73 after 71 and 72 (increase while
    climbing) and the sample 68 after 80 (decrease). *)
Lemma update_rule_witness :
  new_fan hot_config (mkState 30 [lit 719 10] true 0) (lit 719 10) = Return 34 /\
  new_fan hot_config (mkState 38 [fl 71; fl 72; fl 73] true 0) (fl 73) = Return 48 /\
  new_fan hot_config (mkState 55 [fl 80; fl 68] true 0) (fl 68) = Return 53.
Proof.
  split; [ | split].
  - destruct (update_rule hot_config (initial hot_config) (lit 719 10)
                (mkState 30 [lit 719 10] true 0) eq_refl) as (_ & Hup & _).
    destruct (Hup eq_refl 4 eq_refl) as [Hno _].
    apply Hno. intros [H3 _]. cbn in H3. lia.
  - destruct (update_rule hot_config (mkState 38 [fl 71; fl 72] true 0) (fl 73)
                (mkState 38 [fl 71; fl 72; fl 73] true 0) eq_refl) as (_ & Hup & _).
    destruct (Hup eq_refl 7 eq_refl) as [_ Hyes].
    apply (Hyes (conj (le_n 3) eq_refl) (fl 7) 10); reflexivity.
  - destruct (update_rule hot_config (mkState 55 [fl 80] true 0) (fl 68)
                (mkState 55 [fl 80; fl 68] true 0) eq_refl) as (_ & _ & Hdown).
    apply (Hdown eq_refl 3 (fl 3) 2); reflexivity.
Defined.

(** Witness of [hysteresis_gate]: the first sample 80.0 is let through
    (30 to 55), and in gentle mode the sample 70.5 after four samples 70.0
    yields the candidate 51, which the gate holds back at 50. *)
Lemma hysteresis_gate_witness :
  snd (get_fan_speed_for_temp hot_config (initial hot_config) (Some (fl 80)))
    = Return 55 /\
  snd (get_fan_speed_for_temp hot_config
         (mkState 50 [fl 70; fl 70; fl 70; fl 70] false 7) (Some (lit 705 10)))
    = Return 50.
Proof.
  split.
  - destruct (hysteresis_gate hot_config (initial hot_config) (fl 80)
                (mkState 30 [fl 80] true 0) 55 eq_refl eq_refl) as [Hyes _].
    apply Hyes. left. cbn. lia.
  - destruct (hysteresis_gate hot_config
                (mkState 50 [fl 70; fl 70; fl 70; fl 70] false 7) (lit 705 10)
                (mkState 50 [fl 70; fl 70; fl 70; fl 70; lit 705 10] false 8) 51
                eq_refl eq_refl) as [_ Hno].
    apply Hno. intros [H | H]; [cbn in H; lia | vm_compute in H; discriminate].
Defined.


(** Witness of [fan_speed_within_bounds]: the session of the example, at its
    start and after the samples 80.0 and 68.0. *)
Lemma fan_speed_within_bounds_witness :
  last_fan_speed (initial hot_config) = 30 /\
  30 <= last_fan_speed
          (fst (run hot_config (initial hot_config) [Some (fl 80); Some (fl 68)]))
     <= 100.
Proof.
  destruct (fan_speed_within_bounds (fl 70) 30 100 hot_config (initial hot_config)
              eq_refl) as [H0 Hall]; [lia | ].
  split; [exact H0 | ].
  apply Hall. apply run_reachable. constructor.
Defined.


End ControllerFacts.

(** ** The fan curve on doubles *)

Module FanCurveFacts.
Import Binary64 Binary64Facts FanCurve ListFacts.

(** C10: with an unavailable temperature ([None]) the lookup returns [None]:
    no exception and no fallback speed; it is a pure function, so the curve is
    untouched. *)
Theorem unavailable_temperature_is_none
    (A : Type) (N : Num A) (curve : FanCurve.t A) :
  get_fan_speed curve None = Return None.
Proof. reflexivity. Qed.

Lemma ltb_trans a b c : ltb a b = true -> ltb b c = true -> ltb a c = true.
Proof. intros H1 H2. eapply ltb_leb_trans; [exact H1 | now apply ltb_leb]. Qed.

Lemma strictly_ascending_last (p0 q : point float) rest :
  strictly_ascending (p0 :: q :: rest) ->
  ltb (fst p0) (fst (last (q :: rest) p0)) = true.
Proof.
  unfold strictly_ascending. cbn [num_lt float_Num].
  revert p0 q. induction rest as [ | r rest IH]; intros p0 q Hs.
  - inversion Hs as [ | ? ? _ Hd]; subst. now inversion Hd.
  - inversion Hs as [ | ? ? Hs' Hd]; subst. inversion Hd; subst.
    rewrite last_cons. eapply ltb_trans; [eassumption | ].
    now apply IH.
Qed.

Lemma interpolate_bracket pts : forall p0 rest t,
  pts = p0 :: rest ->
  strictly_ascending pts ->
  Forall (fun p => proper (fst p)) pts ->
  is_nan t = false ->
  ltb (fst p0) t = true ->
  leb t (fst (last pts p0)) = true ->
  exists i p1 p2,
    nth_error pts i = Some p1 /\ nth_error pts (S i) = Some p2 /\
    leb (fst p1) t = true /\ leb t (fst p2) = true /\
    interpolate pts t =
      Return (add (snd p1)
                (mul (SFdiv prec emax (sub t (fst p1)) (sub (fst p2) (fst p1)))
                     (sub (snd p2) (snd p1)))).
Proof.
  induction pts as [ | p1 pts IH]; intros p0 rest t E Hs Hp Ht Hlo Hhi;
    [discriminate | ].
  inversion E; subst p0 rest; clear E.
  destruct pts as [ | p2 pts].
  - cbn in Hhi. apply ltb_leb_false in Hlo. congruence.
  - inversion Hs as [ | ? ? Hs' Hd]; subst. inversion Hd as [ | ? ? H12]; subst.
    cbn [num_lt float_Num] in H12.
    inversion Hp as [ | ? ? [Hv1 Hn1] Hp']; subst.
    inversion Hp' as [ | ? ? [Hv2 Hn2] _]; subst.
    destruct p1 as [t1 f1], p2 as [t2 f2]. cbn [fst snd] in *.
    cbn [interpolate num_le num_sub num_add num_mul num_div float_Num].
    rewrite (ltb_leb _ _ Hlo). cbn [andb].
    destruct (leb t t2) eqn:E2.
    + exists 0%nat, (t1, f1), (t2, f2). repeat split; auto.
      * now apply ltb_leb.
      * unfold truediv. now rewrite (sub_nonzero t1 t2 Hv1 Hv2 H12).
    + assert (H2 : ltb t2 t = true) by now apply leb_false_ltb.
      rewrite last_cons in Hhi.
      destruct (IH (t2, f2) pts t eq_refl Hs' Hp' Ht H2) as (i & q1 & q2 & G).
      { destruct pts; [exact Hhi | ]. rewrite last_cons in Hhi |- *. exact Hhi. }
      exists (S i), q1, q2. exact G.
Qed.


(** C5: for a curve with at least one point, its temperatures strictly
    ascending valid numbers, and a temperature that is a number: at or below
    the first point the lookup returns the first fan speed, at or above the
    last point the last fan speed, and otherwise
    [f1 + (t - t1) / (t2 - t1) * (f2 - f1)] for two consecutive points with
    [t1 <= t <= t2], without raising.  On the default curve the lookup gives
    50.0 at 60, 30 at 29 and 100 at 95. *)
Theorem curve_lookup :
  (forall (curve : FanCurve.t float) p0 rest t,
     points curve = p0 :: rest ->
     strictly_ascending (points curve) ->
     Forall (fun p => proper (fst p)) (points curve) ->
     is_nan t = false ->
     let pn := last (points curve) p0 in
     (leb t (fst p0) = true ->
        get_fan_speed curve (Some t) = Return (Some (snd p0))) /\
     (leb (fst pn) t = true ->
        get_fan_speed curve (Some t) = Return (Some (snd pn))) /\
     (leb t (fst p0) = false -> leb (fst pn) t = false ->
        exists i t1 f1 t2 f2,
          nth_error (points curve) i = Some (t1, f1) /\
          nth_error (points curve) (S i) = Some (t2, f2) /\
          leb t1 t = true /\ leb t t2 = true /\
          get_fan_speed curve (Some t) =
            Return (Some (add f1 (mul (SFdiv prec emax (sub t t1) (sub t2 t1))
                                      (sub f2 f1)))))) /\
  (init "Default" None = Return default_curve /\
   points default_curve =
     [(fl 30, fl 30); (fl 50, fl 40); (fl 70, fl 60); (fl 80, fl 80);
      (fl 90, fl 100)] /\
   get_fan_speed default_curve (Some (fl 60)) = Return (Some (lit 500 10)) /\
   get_fan_speed default_curve (Some (fl 29)) = Return (Some (fl 30)) /\
   get_fan_speed default_curve (Some (fl 95)) = Return (Some (fl 100))).
Proof.
  split; [ | repeat split; vm_compute; reflexivity].
  intros curve p0 rest t E Hs Hp Ht. cbv zeta.
  unfold get_fan_speed. rewrite E. rewrite <- E.
  cbn [num_le float_Num].
  assert (Hn0 : is_nan (fst p0) = false).
  { rewrite E in Hp. inversion Hp as [ | ? ? [_ H] _]; subst. exact H. }
  split; [intros ->; reflexivity | ].
  split.
  - intros Hhi. destruct (leb t (fst p0)) eqn:Hlo; [ | now rewrite Hhi].
    destruct rest as [ | q rest].
    + rewrite E. reflexivity.
    + exfalso. rewrite E in Hs, Hhi. rewrite last_cons in Hhi.
      pose proof (strictly_ascending_last p0 q rest Hs) as Hlt.
      pose proof (leb_trans _ _ _ Hhi Hlo) as Hle.
      apply ltb_leb_false in Hlt. congruence.
  - intros Hlo Hhi. rewrite Hlo, Hhi.
    assert (Hn : is_nan (fst (last (points curve) p0)) = false).
    { rewrite Forall_forall in Hp.
      destruct (Hp (last (points curve) p0)) as [_ H]; [ | exact H].
      rewrite E. apply last_In. }
    destruct (interpolate_bracket (points curve) p0 rest t E Hs Hp Ht)
      as (i & [t1 f1] & [t2 f2] & H1 & H2 & H3 & H4 & H5).
    + now apply leb_false_ltb.
    + apply ltb_leb. now apply leb_false_ltb.
    + exists i, t1, f1, t2, f2. rewrite H5. cbn [bind]. repeat split; auto.
Qed.

(** Witness of [curve_lookup]: the default curve, below its first point, above
    its last one and at 60.5 between its second and third points. *)
Lemma curve_lookup_witness :
  get_fan_speed default_curve (Some (fl 20)) = Return (Some (fl 30)) /\
  get_fan_speed default_curve (Some (fl 120)) = Return (Some (fl 100)) /\
  exists i t1 f1 t2 f2,
    nth_error (points default_curve) i = Some (t1, f1) /\
    nth_error (points default_curve) (S i) = Some (t2, f2) /\
    leb t1 (lit 605 10) = true /\ leb (lit 605 10) t2 = true /\
    get_fan_speed default_curve (Some (lit 605 10)) =
      Return (Some (add f1 (mul (SFdiv prec emax (sub (lit 605 10) t1) (sub t2 t1))
                                (sub f2 f1)))).
Proof.
  assert (Hs : strictly_ascending (points default_curve))
    by (repeat constructor).
  assert (Hp : Forall (fun p => proper (fst p)) (points default_curve))
    by (repeat constructor).
  split; [ | split].
  - exact (proj1 (proj1 curve_lookup default_curve _ _ (fl 20)
                    eq_refl Hs Hp eq_refl) eq_refl).
  - exact (proj1 (proj2 (proj1 curve_lookup default_curve _ _ (fl 120)
                           eq_refl Hs Hp eq_refl)) eq_refl).
  - exact (proj2 (proj2 (proj1 curve_lookup default_curve _ _ (lit 605 10)
                           eq_refl Hs Hp eq_refl)) eq_refl eq_refl).
Defined.





End FanCurveFacts.

(** ** The fan curve in exact arithmetic *)

Module ExactCurveFacts.
Import FanCurve ListFacts.
#[local] Open Scope Q_scope.








End ExactCurveFacts.

(** ** The controller over a whole session *)

Module SessionFacts.
Import Binary64 Binary64Facts Controller ControllerFacts Inputs.

Lemma new_fan_direction c s t v :
  min_fan c <= last_fan_speed s <= max_fan c ->
  new_fan c s t = Return v ->
  (ltb zero (sub t (target_temp c)) = true -> last_fan_speed s <= v) /\
  (ltb zero (sub t (target_temp c)) = false -> v <= last_fan_speed s).
Proof.
  intros Hs. unfold new_fan.
  destruct scale_literals as (L15 & L7 & L5).
  assert (Hmin : 1 <= min_adjustment (aggressive_mode s))
    by (unfold min_adjustment; destruct (aggressive_mode s); lia).
  destruct (ltb zero (sub t (target_temp c))).
  - destruct (to_int (mul _ (over_target_gain _))) as [k | ]; [ | discriminate].
    cbn [bind].
    destruct (climbing (temp_history s)).
    + destruct (of_int _) as [f | ] eqn:Ef; [ | discriminate]. cbn [bind].
      destruct (to_int (mul f _)) as [k' | ] eqn:Ek; [ | discriminate].
      cbn [bind]. intros E; inversion E; subst.
      assert (0 <= k')
        by (eapply scaled_adjustment; [ | exact L15 | exact Ef | exact Ek]; lia).
      split; [intros _; lia | discriminate].
    + cbn [bind]. intros E; inversion E; subst.
      split; [intros _; lia | discriminate].
  - destruct (to_int (mul _ (under_target_gain _))) as [k | ]; [ | discriminate].
    cbn [bind].
    destruct (of_int _) as [f | ] eqn:Ef; [ | discriminate]. cbn [bind].
    destruct (to_int (mul f _)) as [k' | ] eqn:Ek; [ | discriminate].
    cbn [bind]. intros E; inversion E; subst.
    assert (0 <= k').
    { eapply scaled_adjustment; [ | | exact Ef | exact Ek]; [lia | ].
      destruct (aggressive_mode s); assumption. }
    split; [discriminate | intros _; lia].
Qed.

Lemma reachable_bounds c s :
  min_fan c <= max_fan c -> reachable c s ->
  min_fan c <= last_fan_speed s <= max_fan c.
Proof.
  intros Hc. induction 1 as [ | s x Hr IH]; [cbn; lia | ].
  exact (proj1 (call_bounds c s x Hc IH)).
Qed.

(** X8: in a session whose bounds satisfy [min_fan <= max_fan], a call with
    a sample above the target ([temp - target > 0]) never returns less than
    the speed the controller held before the call, and a call with any other
    sample never returns more than it. *)
Theorem speed_follows_the_error c s t v :
  min_fan c <= max_fan c ->
  reachable c s ->
  snd (get_fan_speed_for_temp c s (Some t)) = Return v ->
  (ltb zero (sub t (target_temp c)) = true -> last_fan_speed s <= v) /\
  (ltb zero (sub t (target_temp c)) = false -> v <= last_fan_speed s).
Proof.
  intros Hc Hr. pose proof (reachable_bounds c s Hc Hr) as Hb.
  unfold get_fan_speed_for_temp.
  destruct (observe c s t) as [s1 | e] eqn:Ho; [ | discriminate].
  destruct (observe_last c s t s1 Ho) as [Hl _].
  destruct (new_fan c s1 t) as [cand | e] eqn:Hn; [ | discriminate].
  cbn [snd]. intros E; inversion E; subst v; clear E.
  rewrite <- Hl in Hb.
  destruct (new_fan_direction c s1 t cand Hb Hn) as [Hup Hdown].
  rewrite Hl in *.
  destruct (gate c (last_fan_speed s) cand t);
    split; intros Hd; try lia; auto.
Qed.

(** Witness of [speed_follows_the_error]: the first call of the example
    session, at 80 degrees for a target of 70, returns 55 from 30. *)
Lemma speed_follows_the_error_witness :
  last_fan_speed (initial hot_config) <= 55.
Proof.
  refine (proj1 (speed_follows_the_error hot_config (initial hot_config)
                   (fl 80) 55 _ _ _) _).
  - cbn. lia.
  - constructor.
  - vm_compute. reflexivity.
  - vm_compute. reflexivity.
Defined.

Lemma call_history c s x :
  temp_history (fst (get_fan_speed_for_temp c s x)) =
  match x with
  | Some t => push_history (temp_history s) t
  | None => temp_history s
  end.
Proof.
  destruct x as [t | ]; [ | reflexivity].
  destruct (call_state c s t) as (a & n & _ & H & _). exact H.
Qed.

Lemma push_history_suffix h t past older :
  past = older ++ h ->
  length h = Nat.min 10 (length past) ->
  exists older',
    past ++ [t] = older' ++ push_history h t /\
    length (push_history h t) = Nat.min 10 (length (past ++ [t])).
Proof.
  intros Hp Hlen. unfold push_history, history_max_size.
  assert (Hpl : length past = (length older + length h)%nat)
    by (rewrite Hp, length_app; reflexivity).
  rewrite (length_app past). rewrite !length_app. cbn [length].
  destruct (Nat.ltb_spec 10 (length h + 1)) as [H10 | H10].
  - destruct h as [ | y h0]; [cbn in H10; lia | ].
    exists (older ++ [y]). cbn [app tl length] in *.
    rewrite length_app. cbn [length].
    split; [rewrite Hp, <- !app_assoc; reflexivity | lia].
  - exists older. rewrite length_app. cbn [length].
    split; [rewrite Hp, <- app_assoc; reflexivity | lia].
Qed.

Lemma run_history c samples : forall s past,
  (exists older, past = older ++ temp_history s) ->
  length (temp_history s) = Nat.min 10 (length past) ->
  exists older,
    past ++ available samples = older ++ temp_history (fst (run c s samples)) /\
    length (temp_history (fst (run c s samples)))
      = Nat.min 10 (length (past ++ available samples)).
Proof.
  induction samples as [ | x rest IH]; intros s past [older Hp] Hlen.
  - cbn [run available fst]. rewrite app_nil_r. eauto.
  - cbn [run].
    pose proof (call_history c s x) as Hh.
    destruct (get_fan_speed_for_temp c s x) as [s1 r]. cbn [fst] in Hh.
    destruct x as [t | ]; cbn [available].
    + destruct (push_history_suffix _ t _ _ Hp Hlen) as (older' & H1 & H2).
      specialize (IH s1 (past ++ [t])).
      destruct (run c s1 rest) as [s2 rs]. cbn [fst] in *.
      rewrite <- app_assoc in IH. cbn [app] in IH.
      apply IH; rewrite Hh; eauto.
    + specialize (IH s1 past).
      destruct (run c s1 rest) as [s2 rs]. cbn [fst] in *.
      apply IH; rewrite Hh; eauto.
Qed.

(** X9: after any stream of samples fed to a new controller, the history
    holds the last ten available samples of the stream, oldest first, or all
    of them when there are fewer than ten; unavailable samples leave no
    trace in it. *)
Theorem history_is_the_last_ten c samples :
  exists older,
    available samples
      = older ++ temp_history (fst (run c (initial c) samples)) /\
    length (temp_history (fst (run c (initial c) samples)))
      = Nat.min 10 (length (available samples)).
Proof.
  destruct (run_history c samples (initial c) []) as (older & H1 & H2).
  - exists []. reflexivity.
  - reflexivity.
  - exists older. exact (conj H1 H2).
Qed.

Lemma early_sessions_are_aggressive c s :
  reachable c s ->
  (length (temp_history s) < 9)%nat ->
  aggressive_mode s = true /\
  stable_counter s <= Z.max 0 (Z.of_nat (length (temp_history s)) - 3).
Proof.
  induction 1 as [ | s x Hr IH]; [cbn; intros; split; [reflexivity | lia] | ].
  destruct x as [t | ]; [ | exact IH].
  destruct (reachable_invariant c s Hr) as (Hlen & Hpos & _).
  destruct (call_state c s t) as (a & n & E & -> & -> & ->).
  pose proof (push_history_window (temp_history s) t Hlen) as Hw.
  assert (Hl : length (push_history (temp_history s) t)
               = Nat.min 10 (S (length (temp_history s)))).
  { rewrite Hw, length_skipn, length_app. cbn [length]. lia. }
  intros H9. rewrite Hl in H9 |- *.
  destruct IH as [Ha Hc]; [lia | ].
  unfold update_mode, stable_required in E. rewrite Hl in E.
  destruct (Nat.leb_spec 4 (Nat.min 10 (S (length (temp_history s))))) as [H4 | H4].
  - destruct (py_max _); [ | discriminate]. destruct (py_min _); [ | discriminate].
    cbn [bind] in E.
    match type of E with (if ?b then _ else _) = _ => destruct b end;
      inversion E; subst; clear E.
    + destruct (Z.leb_spec 6 (stable_counter s + 1)); cbn [andb]; [lia | ].
      split; [exact Ha | lia].
    + rewrite Ha. cbn. split; [reflexivity | lia].
  - inversion E; subst. split; [exact Ha | lia].
Qed.

(** X10: a controller that has left the aggressive mode has recorded at
    least nine samples: the stability test starts with the fourth sample and
    needs six stable samples in a row. *)
Theorem gentle_needs_nine_samples c s :
  reachable c s -> aggressive_mode s = false ->
  (9 <= length (temp_history s))%nat.
Proof.
  intros Hr Hg.
  destruct (Nat.le_gt_cases 9 (length (temp_history s))) as [H | H]; [exact H | ].
  destruct (early_sessions_are_aggressive c s Hr H) as [Ha _]. congruence.
Qed.

(** Witness of [gentle_needs_nine_samples]: nine samples at the target of
    70 degrees make the example session gentle. *)
Lemma gentle_needs_nine_samples_witness :
  (9 <= length (temp_history
                  (fst (run hot_config (initial hot_config)
                            (repeat (Some (fl 70)) 9)))))%nat.
Proof.
  apply (gentle_needs_nine_samples hot_config).
  - apply run_reachable. constructor.
  - vm_compute. reflexivity.
Defined.

End SessionFacts.

(** ** The readings of the driver *)

Module HardwareFacts.
Import Binary64 Binary64Facts Hardware.

Lemma shr_fexp_nonneg m e l :
  0 <= m -> 0 <= shr_m (fst (shr_fexp prec emax m e l)).
Proof.
  intros Hm. unfold shr_fexp, shr.
  destruct (fexp prec emax (Zdigits2 m + e) - e) as [ | p | p]; cbn [fst];
    rewrite ?shr_record_of_loc_m; try exact Hm.
  rewrite iter_pos_shr_m by (rewrite shr_record_of_loc_m; exact Hm).
  rewrite shr_record_of_loc_m. apply Z.div_pos; [exact Hm | ].
  apply Z.pow_pos_nonneg; lia.
Qed.

Lemma binary_round_aux_not_nan s m e l :
  0 <= m -> is_nan (binary_round_aux prec emax s m e l) = false.
Proof.
  intros Hm. unfold binary_round_aux.
  pose proof (shr_fexp_nonneg m e l Hm) as H1.
  destruct (shr_fexp prec emax m e l) as [mrs' e']. cbn [fst] in H1.
  pose proof (round_nearest_even_ge (shr_m mrs') (loc_of_shr_record mrs')) as H2.
  pose proof (shr_fexp_nonneg (round_nearest_even (shr_m mrs') (loc_of_shr_record mrs'))
                e' loc_Exact ltac:(lia)) as H3.
  destruct (shr_fexp prec emax _ e' loc_Exact) as [mrs'' e'']. cbn [fst] in H3.
  destruct (shr_m mrs''); [reflexivity | | lia].
  destruct (_ <=? _); reflexivity.
Qed.

Lemma fl_not_nan z : is_nan (fl z) = false.
Proof.
  unfold fl, binary_normalize.
  destruct z as [ | p | p]; [reflexivity | | ]; unfold binary_round;
    destruct (shl_align _ _ _) as [mz ez];
    apply binary_round_aux_not_nan; lia.
Qed.

Lemma div_core_nonneg m1 e1 m2 e2 :
  0 <= fst (fst (SFdiv_core_binary prec emax (Zpos m1) e1 (Zpos m2) e2)).
Proof.
  unfold SFdiv_core_binary.
  set (s := _ - _ - Z.min _ _).
  set (m' := match s with Z0 => _ | Zpos _ => _ | Zneg _ => _ end).
  assert (Hm : 0 <= m').
  { subst m'. destruct s; [lia | | lia]. apply Z.shiftl_nonneg. lia. }
  pose proof (Z_div_mod m' (Zpos m2) ltac:(lia)) as Hd.
  destruct (Z.div_eucl m' (Zpos m2)) as [q r]. cbn [fst].
  destruct Hd as [Hq Hr]. nia.
Qed.

Lemma lit_not_nan n d s m e :
  fl d = S754_finite s m e -> is_nan (lit n d) = false.
Proof.
  intros Hd. unfold lit. rewrite Hd.
  pose proof (fl_not_nan n) as Hn.
  destruct (fl n) as [sn | sn | | sn mn en]; try discriminate; try reflexivity.
  unfold SFdiv.
  pose proof (div_core_nonneg mn en m e) as Hq.
  destruct (SFdiv_core_binary prec emax (Zpos mn) en (Zpos m) e) as [[mz ez] lz].
  cbn [fst] in Hq. now apply binary_round_aux_not_nan.
Qed.

Lemma reading_not_nan adl t : get_temperature adl = Some t -> is_nan t = false.
Proof.
  unfold get_temperature. destruct adl as [h | ]; [ | discriminate].
  destruct (Overdrive5_Temperature_Get h) as [rc m].
  destruct (negb (rc =? 0)); [discriminate | ].
  intros E; inversion E; subst.
  eapply lit_not_nan; vm_compute; reflexivity.
Qed.

(** X1: [get_temperature] returns a reading exactly when the library is set
    up and the driver's result code is 0; the reading is then the driver's
    millidegrees divided by 1000.0, and it is never NaN, whatever integer
    the driver wrote.  In every other case it returns [None]. *)
Theorem readings_are_numbers adl :
  match get_temperature adl with
  | Some t =>
    is_nan t = false /\
    exists h millidegrees,
      adl = Some h /\ Overdrive5_Temperature_Get h = (0, millidegrees) /\
      t = lit millidegrees 1000
  | None =>
    adl = None \/
    exists h, adl = Some h /\ fst (Overdrive5_Temperature_Get h) <> 0
  end.
Proof.
  destruct (get_temperature adl) as [t | ] eqn:E.
  - split; [exact (reading_not_nan adl t E) | ].
    unfold get_temperature in E. destruct adl as [h | ]; [ | discriminate].
    destruct (Overdrive5_Temperature_Get h) as [rc m] eqn:Eh.
    destruct (Z.eqb_spec rc 0) as [-> | Hrc]; cbn [negb] in E; [ | discriminate].
    inversion E; subst. eauto.
  - unfold get_temperature in E. destruct adl as [h | ]; [ | now left].
    destruct (Overdrive5_Temperature_Get h) as [rc m] eqn:Eh.
    destruct (Z.eqb_spec rc 0) as [-> | Hrc]; cbn [negb] in E; [discriminate | ].
    right. exists h. rewrite Eh. split; [reflexivity | exact Hrc].
Qed.

End HardwareFacts.

(** ** Construction and lookup of a curve on doubles *)

Module SortFacts.
Import Binary64 Binary64Facts FanCurve ListFacts Inputs.

Section Generic.
Context {A : Type} `{Num A}.

Lemma insert_permutation (p : point A) l : Permutation (p :: l) (insert p l).
Proof.
  induction l as [ | q l IH]; cbn [insert]; [reflexivity | ].
  destruct (num_lt (fst q) (fst p)); [ | reflexivity].
  rewrite perm_swap. now apply perm_skip.
Qed.

Lemma sort_permutation (l : list (point A)) : Permutation l (sort l).
Proof.
  induction l as [ | p l IH]; [reflexivity | ].
  cbn [sort fold_right]. fold (sort l).
  rewrite <- insert_permutation. now apply perm_skip.
Qed.

End Generic.

Lemma not_ltb_leb a b :
  is_nan a = false -> is_nan b = false -> ltb a b = false -> leb b a = true.
Proof. float_order. Qed.

Lemma leb_not_ltb a b : leb a b = true -> ltb b a = false.
Proof. float_order. Qed.

Lemma insert_ascending (p : point float) l :
  is_nan (fst p) = false ->
  Forall (fun q => is_nan (fst q) = false) l ->
  ascending l -> ascending (insert p l).
Proof.
  intros Hp Hl Hs. unfold ascending in *. cbn [num_le float_Num] in *.
  induction l as [ | q l IH]; cbn [insert]; [repeat constructor | ].
  inversion Hl as [ | ? ? Hq Hl']; subst.
  inversion Hs as [ | ? ? Hs' Hd]; subst.
  cbn [num_lt float_Num].
  destruct (ltb (fst q) (fst p)) eqn:E.
  - constructor; [now apply IH | ].
    destruct l as [ | r l]; cbn [insert].
    + constructor. now apply ltb_leb.
    + cbn [num_lt float_Num]. destruct (ltb (fst r) (fst p)); constructor.
      * now inversion Hd.
      * now apply ltb_leb.
  - constructor; [exact Hs | ]. constructor. now apply not_ltb_leb.
Qed.

Lemma sort_ascending (l : list (point float)) :
  Forall (fun q => is_nan (fst q) = false) l -> ascending (sort l).
Proof.
  induction l as [ | p l IH]; intros Hl; [constructor | ].
  inversion Hl; subst. cbn [sort fold_right]. fold (sort l).
  apply insert_ascending; auto.
  eapply Permutation_Forall; [apply sort_permutation | assumption].
Qed.

Lemma sort_ascending_id (l : list (point float)) :
  ascending l -> sort l = l.
Proof.
  unfold ascending. cbn [num_le float_Num].
  induction l as [ | p l IH]; intros Hs; [reflexivity | ].
  inversion Hs as [ | ? ? Hs' Hd]; subst.
  cbn [sort fold_right]. fold (sort l). rewrite (IH Hs').
  destruct l as [ | q l]; [reflexivity | ].
  cbn [insert num_lt float_Num].
  inversion Hd; subst. now rewrite leb_not_ltb.
Qed.

Lemma proper_not_nan (l : list (point float)) :
  Forall (fun p => proper (fst p)) l ->
  Forall (fun p => is_nan (fst p) = false) l.
Proof. apply Forall_impl. now intros p [_ H]. Qed.

Lemma init_points label pts (curve : FanCurve.t float) :
  init label pts = Return curve ->
  name curve = label /\ points curve = sort (points_or_default pts).
Proof. intros E. inversion E; subst. split; reflexivity. Qed.

Lemma points_or_default_nonempty pts : points_or_default pts <> [].
Proof. destruct pts as [[ | ] | ]; discriminate. Qed.

(** X2: when no temperature of the points given to [FanCurve] (the five
    default points when none are given) is NaN, the curve built holds
    exactly those points, each as often as given, in ascending order of
    temperature. *)
Theorem constructor_sorts_the_points label pts curve :
  Forall (fun p => is_nan (fst p) = false) (points_or_default pts) ->
  init label pts = Return curve ->
  ascending (points curve) /\ Permutation (points_or_default pts) (points curve).
Proof.
  intros Hn E. destruct (init_points label pts curve E) as [_ ->].
  split; [now apply sort_ascending | apply sort_permutation].
Qed.

(** Witness of [constructor_sorts_the_points]: two points given in
    descending order. *)
Lemma constructor_sorts_the_points_witness :
  ascending (points (mkCurve "Custom" [(fl 30, fl 30); (fl 70, fl 60)])) /\
  Permutation (points_or_default (Some [(fl 70, fl 60); (fl 30, fl 30)]))
              (points (mkCurve "Custom" [(fl 30, fl 30); (fl 70, fl 60)])).
Proof.
  apply (constructor_sorts_the_points "Custom"
           (Some [(fl 70, fl 60); (fl 30, fl 30)])).
  - repeat constructor.
  - vm_compute. reflexivity.
Defined.

End SortFacts.

Module LookupFacts.
Import Binary64 Binary64Facts FanCurve ListFacts Inputs SortFacts.

Lemma interpolate_first_bracket pts : forall p0 rest t,
  pts = p0 :: rest ->
  Forall (fun p => proper (fst p)) pts ->
  is_nan t = false ->
  ltb (fst p0) t = true ->
  leb t (fst (last pts p0)) = true ->
  exists i p1 p2,
    nth_error pts i = Some p1 /\ nth_error pts (S i) = Some p2 /\
    ltb (fst p1) t = true /\ leb t (fst p2) = true /\
    interpolate pts t =
      Return (add (snd p1)
                (mul (SFdiv prec emax (sub t (fst p1)) (sub (fst p2) (fst p1)))
                     (sub (snd p2) (snd p1)))).
Proof.
  induction pts as [ | p1 pts IH]; intros p0 rest t E Hp Ht Hlo Hhi;
    [discriminate | ].
  inversion E; subst p0 rest; clear E.
  destruct pts as [ | p2 pts].
  - cbn in Hhi. apply ltb_leb_false in Hlo. congruence.
  - inversion Hp as [ | ? ? [Hv1 Hn1] Hp']; subst.
    inversion Hp' as [ | ? ? [Hv2 Hn2] _]; subst.
    destruct p1 as [t1 f1], p2 as [t2 f2]. cbn [fst snd] in *.
    cbn [interpolate num_le num_sub num_add num_mul num_div float_Num].
    rewrite (ltb_leb _ _ Hlo). cbn [andb].
    destruct (leb t t2) eqn:E2.
    + exists 0%nat, (t1, f1), (t2, f2). repeat split; auto.
      unfold truediv.
      now rewrite (sub_nonzero t1 t2 Hv1 Hv2 (ltb_leb_trans _ _ _ Hlo E2)).
    + assert (H2 : ltb t2 t = true) by now apply leb_false_ltb.
      rewrite last_cons in Hhi.
      destruct (IH (t2, f2) pts t eq_refl Hp' Ht H2) as (i & q1 & q2 & G).
      { destruct pts; [exact Hhi | ]. rewrite last_cons in Hhi |- *. exact Hhi. }
      exists (S i), q1, q2. exact G.
Qed.

Lemma lookup_cases (curve : FanCurve.t float) p0 rest t :
  points curve = p0 :: rest ->
  Forall (fun p => proper (fst p)) (points curve) ->
  is_nan t = false ->
  let pn := last (points curve) p0 in
  (leb t (fst p0) = true ->
     get_fan_speed curve (Some t) = Return (Some (snd p0))) /\
  (leb t (fst p0) = false -> leb (fst pn) t = true ->
     get_fan_speed curve (Some t) = Return (Some (snd pn))) /\
  (leb t (fst p0) = false -> leb (fst pn) t = false ->
     exists i t1 f1 t2 f2,
       nth_error (points curve) i = Some (t1, f1) /\
       nth_error (points curve) (S i) = Some (t2, f2) /\
       ltb t1 t = true /\ leb t t2 = true /\
       get_fan_speed curve (Some t) =
         Return (Some (add f1 (mul (SFdiv prec emax (sub t t1) (sub t2 t1))
                                   (sub f2 f1))))).
Proof.
  intros E Hp Ht. cbv zeta.
  unfold get_fan_speed. rewrite E. rewrite <- E.
  cbn [num_le float_Num].
  assert (Hn0 : is_nan (fst p0) = false).
  { rewrite E in Hp. inversion Hp as [ | ? ? [_ H] _]; subst. exact H. }
  split; [intros ->; reflexivity | ].
  split; [intros -> ->; reflexivity | ].
  intros Hlo Hhi. rewrite Hlo, Hhi.
  assert (Hn : is_nan (fst (last (points curve) p0)) = false).
  { rewrite Forall_forall in Hp.
    destruct (Hp (last (points curve) p0)) as [_ H]; [ | exact H].
    rewrite E. apply last_In. }
  destruct (interpolate_first_bracket (points curve) p0 rest t E Hp Ht)
    as (i & [t1 f1] & [t2 f2] & H1 & H2 & H3 & H4 & H5).
  - now apply leb_false_ltb.
  - apply ltb_leb. now apply leb_false_ltb.
  - exists i, t1, f1, t2, f2. rewrite H5. cbn [bind]. repeat split; auto.
Qed.

Lemma lookup_returns (curve : FanCurve.t float) t :
  points curve <> [] ->
  Forall (fun p => proper (fst p)) (points curve) ->
  is_nan t = false ->
  exists v, get_fan_speed curve (Some t) = Return (Some v).
Proof.
  intros Hne Hp Ht.
  destruct (points curve) as [ | p0 rest] eqn:E; [congruence | ].
  rewrite <- E in Hp.
  destruct (lookup_cases curve p0 rest t E Hp Ht) as (H1 & H2 & H3).
  destruct (leb t (fst p0)) eqn:E1; [eauto | ].
  destruct (leb (fst (last (points curve) p0)) t) eqn:E2; [eauto | ].
  destruct (H3 eq_refl eq_refl) as (i & t1 & f1 & t2 & f2 & _ & _ & _ & _ & G).
  eauto.
Qed.

Lemma constructed_points label pts (curve : FanCurve.t float) :
  Forall (fun p => proper (fst p)) (points_or_default pts) ->
  init label pts = Return curve ->
  (exists p0 rest, points curve = p0 :: rest) /\
  Forall (fun p => proper (fst p)) (points curve).
Proof.
  intros Hg E. destruct (init_points label pts curve E) as [_ ->].
  pose proof (sort_permutation (points_or_default pts)) as Hperm.
  split.
  - destruct (sort (points_or_default pts)) as [ | p0 rest] eqn:Es; [ | eauto].
    apply Permutation_sym, Permutation_nil in Hperm.
    now apply points_or_default_nonempty in Hperm.
  - eapply Permutation_Forall; eassumption.
Qed.

(** X3: for every curve [FanCurve] builds from points whose temperatures
    are valid numbers, in any order and also with repeated temperatures
    (which the dialog lets through), and every temperature that is a number,
    the lookup raises nothing and never falls through to 50: it returns the
    first fan speed at or below the first point, else the last fan speed at
    or above the last point, else [f1 + (t - t1) / (t2 - t1) * (f2 - f1)]
    for two consecutive points with [t1 < t <= t2]. *)
Theorem constructed_curve_lookup label pts (curve : FanCurve.t float) t :
  Forall (fun p => proper (fst p)) (points_or_default pts) ->
  init label pts = Return curve ->
  is_nan t = false ->
  exists p0 rest,
    points curve = p0 :: rest /\
    let pn := last (points curve) p0 in
    (leb t (fst p0) = true ->
       get_fan_speed curve (Some t) = Return (Some (snd p0))) /\
    (leb t (fst p0) = false -> leb (fst pn) t = true ->
       get_fan_speed curve (Some t) = Return (Some (snd pn))) /\
    (leb t (fst p0) = false -> leb (fst pn) t = false ->
       exists i t1 f1 t2 f2,
         nth_error (points curve) i = Some (t1, f1) /\
         nth_error (points curve) (S i) = Some (t2, f2) /\
         ltb t1 t = true /\ leb t t2 = true /\
         get_fan_speed curve (Some t) =
           Return (Some (add f1 (mul (SFdiv prec emax (sub t t1) (sub t2 t1))
                                     (sub f2 f1))))).
Proof.
  intros Hg E Ht.
  destruct (constructed_points label pts curve Hg E) as ((p0 & rest & Ep) & Hp).
  exists p0, rest. split; [exact Ep | ].
  exact (lookup_cases curve p0 rest t Ep Hp Ht).
Qed.

(** Witness of [constructed_curve_lookup]: a curve entered with the
    temperature 50 twice, looked up at 60.5 degrees. *)
Lemma constructed_curve_lookup_witness :
  exists p0 rest,
    points (mkCurve "Custom" [(fl 50, fl 40); (fl 50, fl 60); (fl 70, fl 80)])
      = p0 :: rest /\
    let pn :=
      last (points (mkCurve "Custom"
                      [(fl 50, fl 40); (fl 50, fl 60); (fl 70, fl 80)])) p0 in
    (leb (lit 605 10) (fst p0) = true ->
       get_fan_speed
         (mkCurve "Custom" [(fl 50, fl 40); (fl 50, fl 60); (fl 70, fl 80)])
         (Some (lit 605 10)) = Return (Some (snd p0))) /\
    (leb (lit 605 10) (fst p0) = false -> leb (fst pn) (lit 605 10) = true ->
       get_fan_speed
         (mkCurve "Custom" [(fl 50, fl 40); (fl 50, fl 60); (fl 70, fl 80)])
         (Some (lit 605 10)) = Return (Some (snd pn))) /\
    (leb (lit 605 10) (fst p0) = false -> leb (fst pn) (lit 605 10) = false ->
       exists i t1 f1 t2 f2,
         nth_error
           (points (mkCurve "Custom"
                      [(fl 50, fl 40); (fl 50, fl 60); (fl 70, fl 80)])) i
           = Some (t1, f1) /\
         nth_error
           (points (mkCurve "Custom"
                      [(fl 50, fl 40); (fl 50, fl 60); (fl 70, fl 80)])) (S i)
           = Some (t2, f2) /\
         ltb t1 (lit 605 10) = true /\ leb (lit 605 10) t2 = true /\
         get_fan_speed
           (mkCurve "Custom" [(fl 50, fl 40); (fl 50, fl 60); (fl 70, fl 80)])
           (Some (lit 605 10)) =
           Return (Some (add f1 (mul (SFdiv prec emax (sub (lit 605 10) t1)
                                                      (sub t2 t1))
                                     (sub f2 f1))))).
Proof.
  apply (constructed_curve_lookup "Custom"
           (Some [(fl 70, fl 80); (fl 50, fl 40); (fl 50, fl 60)])).
  - repeat constructor.
  - vm_compute. reflexivity.
  - vm_compute. reflexivity.
Defined.

Lemma interpolate_nan (pts : list (point float)) :
  interpolate pts S754_nan = Return (fl 50).
Proof.
  induction pts as [ | [t1 f1] pts IH]; [reflexivity | ].
  destruct pts as [ | [t2 f2] pts]; [reflexivity | ].
  cbn [interpolate num_le float_Num].
  replace (leb S754_nan t2) with false by (now destruct t2).
  rewrite andb_false_r. exact IH.
Qed.

(** X4: a temperature that is NaN fails every comparison of the lookup, so
    on any curve with at least one point the lookup returns the fallback 50,
    the line the source marks as never reached. *)
Theorem nan_temperature_gets_the_fallback (curve : FanCurve.t float) t :
  points curve <> [] -> is_nan t = true ->
  get_fan_speed curve (Some t) = Return (Some (fl 50)).
Proof.
  intros Hne Ht. destruct t; try discriminate.
  unfold get_fan_speed. destruct (points curve) as [ | p0 rest] eqn:E; [congruence | ].
  cbn [num_le float_Num].
  replace (leb S754_nan (fst p0)) with false by (now destruct (fst p0)).
  replace (leb (fst (last (p0 :: rest) p0)) S754_nan) with false
    by (now destruct (fst (last (p0 :: rest) p0)) as [ | | | ]).
  now rewrite interpolate_nan.
Qed.

(** Witness of [nan_temperature_gets_the_fallback]: the default curve. *)
Lemma nan_temperature_gets_the_fallback_witness :
  get_fan_speed default_curve (Some S754_nan) = Return (Some (fl 50)).
Proof.
  apply nan_temperature_gets_the_fallback.
  - discriminate.
  - reflexivity.
Defined.

End LookupFacts.

(** ** The lookup in exact arithmetic *)

Module ExactRangeFacts.
Import FanCurve ListFacts.
#[local] Open Scope Q_scope.





End ExactRangeFacts.

(** ** The curve file *)

Module PersistenceFacts.
Import Binary64 Binary64Facts FanCurve ListFacts Inputs Persistence SortFacts.

(** X6: a curve built by [FanCurve] from points without a NaN temperature
    is read back by [load_curve] from the file [save_curve] writes as the
    same curve, name and points (the JSON encoding being taken to preserve
    the name and the numbers). *)
Theorem saved_curve_loads_back label pts curve :
  Forall (fun p => is_nan (fst p) = false) (points_or_default pts) ->
  init label pts = Return curve ->
  load_curve (save_curve curve) = Return (Some curve).
Proof.
  intros Hn E. destruct (init_points label pts curve E) as [En Ep].
  pose proof (sort_ascending _ Hn) as Hs. rewrite <- Ep in Hs.
  assert (Hne : points curve <> []).
  { rewrite Ep. intros H0.
    pose proof (sort_permutation (points_or_default pts)) as Hperm.
    rewrite H0 in Hperm. apply Permutation_sym, Permutation_nil in Hperm.
    now apply points_or_default_nonempty in Hperm. }
  destruct curve as [n l]. cbn [points] in *.
  unfold load_curve, save_curve, get, object_name, object_points, init.
  cbn [FanCurve.name points bind].
  destruct l as [ | p l]; [congruence | ].
  now rewrite sort_ascending_id.
Qed.

(** Witness of [saved_curve_loads_back]: a curve of two points given in
    descending order. *)
Lemma saved_curve_loads_back_witness :
  load_curve (save_curve (mkCurve "Custom" [(fl 30, fl 30); (fl 70, fl 60)]))
    = Return (Some (mkCurve "Custom" [(fl 30, fl 30); (fl 70, fl 60)])).
Proof.
  apply (saved_curve_loads_back "Custom"
           (Some [(fl 70, fl 60); (fl 30, fl 30)])).
  - repeat constructor.
  - vm_compute. reflexivity.
Defined.


End PersistenceFacts.

(** ** The temperature loop *)

Module LoopFacts.
Import Binary64 Binary64Facts Controller ControllerFacts Hardware Loops.

Lemma temp_limit_pass_bounds c s adl :
  min_fan c <= max_fan c ->
  min_fan c <= last_fan_speed s <= max_fan c ->
  min_fan c <= last_fan_speed (fst (temp_limit_pass c s adl)) <= max_fan c /\
  forall sent, snd (temp_limit_pass c s adl) = Return (Some sent) ->
    0 <= min_fan c -> max_fan c <= 100 -> min_fan c <= sent <= max_fan c.
Proof.
  intros Hc Hs. unfold temp_limit_pass.
  destruct (get_temperature (Some adl)) as [temp | ];
    [ | cbn [fst snd]; split; [exact Hs | discriminate]].
  pose proof (call_bounds c s (Some temp) Hc Hs) as [H1 H2].
  destruct (get_fan_speed_for_temp c s (Some temp)) as [s' r].
  cbn [fst snd] in *. split; [exact H1 | ].
  intros sent. destruct r as [v | e]; [ | discriminate]. cbn [bind].
  intros E. inversion E as [E']; clear E.
  specialize (H2 v eq_refl). lia.
Qed.

Lemma temp_limit_loop_bounds c passes : forall s,
  min_fan c <= max_fan c ->
  min_fan c <= last_fan_speed s <= max_fan c ->
  0 <= min_fan c -> max_fan c <= 100 ->
  Forall (fun sent => min_fan c <= sent <= max_fan c)
         (fst (temp_limit_loop c s passes)).
Proof.
  induction passes as [ | adl rest IH]; intros s Hc Hs H0 H100; [constructor | ].
  cbn [temp_limit_loop].
  destruct (temp_limit_pass_bounds c s adl Hc Hs) as [H1 H2].
  destruct (temp_limit_pass c s adl) as [s' [sent | e]]; [ | constructor].
  cbn [fst snd] in *. specialize (IH s' Hc H1 H0 H100).
  destruct (temp_limit_loop c s' rest) as [l e]. cbn [fst] in *.
  destruct sent as [v | ]; [ | exact IH].
  constructor; [now apply H2 | exact IH].
Qed.

Lemma temp_limit_loop_clamped c passes : forall s,
  Forall (fun sent => 0 <= sent <= 100) (fst (temp_limit_loop c s passes)).
Proof.
  induction passes as [ | adl rest IH]; intros s; [constructor | ].
  cbn [temp_limit_loop]. unfold temp_limit_pass.
  destruct (get_temperature (Some adl)) as [temp | ].
  - destruct (get_fan_speed_for_temp c s (Some temp)) as [s' [v | e]];
      cbn [bind set_fan_speed fst]; [ | constructor].
    specialize (IH s'). destruct (temp_limit_loop c s' rest) as [l e].
    cbn [fst] in *. constructor; [lia | exact IH].
  - specialize (IH s). destruct (temp_limit_loop c s rest) as [l e].
    exact IH.
Qed.

(** X11: every percentage [apply_temp_limit] hands to the driver lies
    between 0 and 100, and between the two bounds it was started with when
    these satisfy [0 <= min_fan <= max_fan <= 100], whatever the driver
    answers and however long the loop runs. *)
Theorem temp_limit_stays_in_range target lo hi passes :
  Forall (fun sent => 0 <= sent <= 100)
         (fst (apply_temp_limit target lo hi passes)) /\
  (0 <= lo -> lo <= hi -> hi <= 100 ->
   Forall (fun sent => lo <= sent <= hi)
          (fst (apply_temp_limit target lo hi passes))).
Proof.
  unfold apply_temp_limit, temperature_control. split.
  - apply temp_limit_loop_clamped.
  - intros H0 Hc H100.
    apply (temp_limit_loop_bounds (mkConfig target lo hi) passes); cbn; lia.
Qed.

End LoopFacts.

(** ** The dialogs *)

Module DialogFacts.
Import Binary64 Binary64Facts Controller ControllerFacts.
Import FanCurve ListFacts Inputs SortFacts LookupFacts Hardware HardwareFacts.
Import Dialogs.

(** X12: either slider handler returns once two nested calls are allowed:
    moving the minimum above the maximum raises the maximum to it, moving the
    maximum below the minimum lowers the minimum to it, and nothing else
    changes; afterwards [min <= max], so [on_ok] accepts the dialog. *)
Theorem sliders_keep_min_below_max d fuel :
  update_min_label (S (S fuel)) d
    = Some (mkTempControlDialog (target_var d) (min_var d)
                                (Z.max (min_var d) (max_var d))) /\
  update_max_label (S (S fuel)) d
    = Some (mkTempControlDialog (target_var d)
                                (Z.min (min_var d) (max_var d)) (max_var d)) /\
  forall d',
    update_min_label (S (S fuel)) d = Some d' \/
    update_max_label (S (S fuel)) d = Some d' ->
    temp_on_ok d' = Some (target_var d, min_var d', max_var d') /\
    min_var d' <= max_var d'.
Proof.
  assert (Hmin : update_min_label (S (S fuel)) d
    = Some (mkTempControlDialog (target_var d) (min_var d)
                                (Z.max (min_var d) (max_var d)))).
  { destruct d as [t lo hi].
    cbn [update_min_label update_max_label target_var min_var max_var].
    destruct (Z.ltb_spec hi lo) as [H | H].
    - rewrite Z.ltb_irrefl. repeat f_equal; lia.
    - repeat f_equal; lia. }
  assert (Hmax : update_max_label (S (S fuel)) d
    = Some (mkTempControlDialog (target_var d)
                                (Z.min (min_var d) (max_var d)) (max_var d))).
  { destruct d as [t lo hi].
    cbn [update_min_label update_max_label target_var min_var max_var].
    destruct (Z.ltb_spec hi lo) as [H | H].
    - rewrite Z.ltb_irrefl. repeat f_equal; lia.
    - repeat f_equal; lia. }
  split; [exact Hmin | ]. split; [exact Hmax | ].
  intros d' [E | E]; [rewrite Hmin in E | rewrite Hmax in E];
    inversion E; subst d'; unfold temp_on_ok; cbn [target_var min_var max_var].
  - destruct (Z.ltb_spec (Z.max (min_var d) (max_var d)) (min_var d));
      [lia | split; [reflexivity | lia]].
  - destruct (Z.ltb_spec (max_var d) (Z.min (min_var d) (max_var d)));
      [lia | split; [reflexivity | lia]].
Qed.

Lemma run_bounds c samples : forall s,
  min_fan c <= max_fan c ->
  min_fan c <= last_fan_speed s <= max_fan c ->
  min_fan c <= last_fan_speed (fst (run c s samples)) <= max_fan c /\
  Forall (fun r => forall v, r = Return v -> min_fan c <= v <= max_fan c)
         (snd (run c s samples)).
Proof.
  induction samples as [ | x rest IH]; intros s Hc Hs;
    [cbn; split; [exact Hs | constructor] | ].
  cbn [run].
  destruct (call_bounds c s x Hc Hs) as [H1 H2].
  destruct (get_fan_speed_for_temp c s x) as [s1 r]. cbn [fst snd] in *.
  destruct (IH s1 Hc H1) as [H3 H4].
  destruct (run c s1 rest) as [s2 rs]. cbn [fst snd] in *.
  split; [exact H3 | constructor; [exact H2 | exact H4]].
Qed.

(** X13: the settings [TempControlDialog.on_ok] passes to its callback
    satisfy [min_fan <= max_fan], and every speed returned by the controller
    built from them, for any stream of samples, lies between the two
    bounds. *)
Theorem accepted_limits_bound_the_fan d target lo hi c s0 samples :
  temp_on_ok d = Some (target, lo, hi) ->
  temperature_control (fl target) lo hi = Return (c, s0) ->
  lo <= hi /\
  Forall (fun r => forall v, r = Return v -> lo <= v <= hi)
         (snd (run c s0 samples)).
Proof.
  unfold temp_on_ok. destruct (Z.ltb_spec (max_var d) (min_var d)) as [H | H];
    [discriminate | ].
  intros E Et. inversion E; subst; clear E.
  inversion Et; subst; clear Et.
  split; [exact H | ].
  apply (run_bounds (mkConfig (fl (target_var d)) (min_var d) (max_var d)));
    cbn; lia.
Qed.

(** Witness of [accepted_limits_bound_the_fan]: the dialog left at its
    initial 70, 30 and 100, and the samples 80.0 and 68.0. *)
Lemma accepted_limits_bound_the_fan_witness :
  30 <= 100 /\
  Forall (fun r => forall v, r = Return v -> 30 <= v <= 100)
         (snd (run hot_config (initial hot_config) [Some (fl 80); Some (fl 68)])).
Proof.
  apply (accepted_limits_bound_the_fan (mkTempControlDialog 70 30 100) 70).
  - reflexivity.
  - reflexivity.
Defined.

Lemma small_fl_proper z : 0 <= z <= 110 -> proper (fl z).
Proof.
  intros Hz.
  assert (H : forallb (fun n => valid_binary prec emax (fl (Z.of_nat n))
                                && negb (is_nan (fl (Z.of_nat n))))
                      (seq 0 111) = true) by (vm_compute; reflexivity).
  rewrite forallb_forall in H. specialize (H (Z.to_nat z)).
  rewrite Z2Nat.id in H by lia.
  assert (Hin : In (Z.to_nat z) (seq 0 111)) by (apply in_seq; lia).
  apply H, andb_true_iff in Hin. destruct Hin as [H1 H2].
  split; [exact H1 | now apply negb_true_iff].
Qed.

Lemma collect_points d count : forall i acc pts,
  Forall (fun p => 0 < fst p <= 110 /\ 0 <= snd p <= 100) acc ->
  collect d count i acc = Return (inr pts) ->
  Forall (fun p => 0 < fst p <= 110 /\ 0 <= snd p <= 100) pts /\
  (length pts <= length acc + count)%nat.
Proof.
  induction count as [ | count IH]; intros i acc pts Hacc E.
  - cbn in E. inversion E; subst. split; [exact Hacc | lia].
  - cbn [collect] in E.
    destruct (var_get (temp_vars d) i) as [[temp | ] | e]; cbn [bind] in E;
      [ | | discriminate].
    + destruct (var_get (fan_vars d) i) as [[fan | ] | e]; cbn [bind] in E;
        [ | | discriminate].
      * destruct (Z.ltb_spec 0 temp) as [Ht | Ht].
        -- destruct (_ && _) eqn:Eb; [ | discriminate].
           apply andb_true_iff in Eb. destruct Eb as [Eb1 Eb2].
           apply andb_true_iff in Eb1, Eb2.
           destruct (IH (S i) (acc ++ [(temp, fan)]) pts) as [H1 H2]; auto.
           ++ apply Forall_app. split; [exact Hacc | ].
              constructor; [cbn; lia | constructor].
           ++ rewrite length_app in H2. cbn in H2. split; [exact H1 | lia].
        -- destruct (IH (S i) acc pts Hacc E). split; [assumption | lia].
      * destruct (IH (S i) acc pts Hacc E). split; [assumption | lia].
    + destruct (IH (S i) acc pts Hacc E). split; [assumption | lia].
Qed.

(** X14: a curve that [FanCurveDialog.on_ok] passes to its callback has a
    non-empty name, between two and five points, each with an integer
    temperature from 1 to 110 and an integer fan speed from 0 to 100, in
    ascending order of temperature; and for every reading [get_temperature]
    returns, the lookup on it returns a speed without raising. *)
Theorem dialog_curve_is_usable d curve :
  curve_on_ok d = Return (Accepted curve) ->
  name curve <> EmptyString /\
  (2 <= length (points curve) <= 5)%nat /\
  Forall (fun p => exists temp fan,
            p = (fl temp, fl fan) /\ 0 < temp <= 110 /\ 0 <= fan <= 100)
         (points curve) /\
  ascending (points curve) /\
  forall adl t,
    get_temperature adl = Some t ->
    exists v, get_fan_speed curve (Some t) = Return (Some v).
Proof.
  unfold curve_on_ok.
  destruct (collect d 5 0 []) as [[i | pts] | e] eqn:Ec; cbn [bind];
    try discriminate.
  destruct (Nat.ltb_spec (length pts) 2) as [Hl | Hl]; [discriminate | ].
  destruct (collect_points d 5 0 [] pts (Forall_nil _) Ec) as [Hpts Hlen].
  cbn [length] in Hlen.
  set (floats := map (fun p : Z * Z => (fl (fst p), fl (snd p))) pts).
  assert (Hfl : length floats = length pts) by apply length_map.
  assert (Hform : Forall (fun p => exists temp fan,
            p = (fl temp, fl fan) /\ 0 < temp <= 110 /\ 0 <= fan <= 100) floats).
  { subst floats. apply Forall_map. eapply Forall_impl; [ | exact Hpts].
    intros [temp fan] H. exists temp, fan. cbn in *. auto. }
  assert (Hprop : Forall (fun p : point float => proper (fst p)) floats).
  { eapply Forall_impl; [ | exact Hform].
    intros p (temp & fan & -> & Ht & _). cbn. apply small_fl_proper. lia. }
  unfold init. cbn [bind]. intros E. inversion E; subst curve; clear E.
  cbn [name points].
  match goal with
  | |- context [sort ?m] =>
      replace m with floats by (destruct floats; [cbn in Hfl; lia | reflexivity])
  end.
  pose proof (sort_permutation floats) as Hperm.
  assert (Hlen' : length (sort floats) = length pts)
    by (rewrite <- (Permutation_length Hperm); exact Hfl).
  split; [ | split; [ | split; [ | split]]].
  - destruct (String.eqb_spec (name_var d) EmptyString);
      [discriminate | assumption].
  - lia.
  - eapply Permutation_Forall; eassumption.
  - apply sort_ascending. now apply proper_not_nan.
  - intros adl t Ht.
    apply lookup_returns.
    + cbn [points]. intros H0. rewrite H0 in Hlen'. cbn in Hlen'. lia.
    + cbn [points]. eapply Permutation_Forall; eassumption.
    + eapply reading_not_nan; eassumption.
Qed.

(** Witness of [dialog_curve_is_usable]: the dialog with an empty name, the
    rows (70, 60) and (30, 30), a row left at zero and two rows that cannot
    be read. *)
Lemma dialog_curve_is_usable_witness :
  name (mkCurve "Custom" [(fl 30, fl 30); (fl 70, fl 60)]) <> EmptyString /\
  (2 <= length (points (mkCurve "Custom" [(fl 30, fl 30); (fl 70, fl 60)]))
     <= 5)%nat /\
  Forall (fun p => exists temp fan,
            p = (fl temp, fl fan) /\ 0 < temp <= 110 /\ 0 <= fan <= 100)
         (points (mkCurve "Custom" [(fl 30, fl 30); (fl 70, fl 60)])) /\
  ascending (points (mkCurve "Custom" [(fl 30, fl 30); (fl 70, fl 60)])) /\
  forall adl t,
    get_temperature adl = Some t ->
    exists v,
      get_fan_speed (mkCurve "Custom" [(fl 30, fl 30); (fl 70, fl 60)]) (Some t)
        = Return (Some v).
Proof.
  apply (dialog_curve_is_usable
           (mkFanCurveDialog EmptyString
              [Some 70; Some 30; Some 0; None; Some 55]
              [Some 60; Some 30; Some 0; Some 40; None])).
  vm_compute. reflexivity.
Defined.

End DialogFacts.
